(** * gaft: the Genetic Algorithm engine ([gaft/engine.py])

    A shallow embedding of [GAEngine]: construction, fitness registration,
    static and dynamic linear fitness scaling, and the generational loop of
    [run] with elitism, statistics refresh and the analysis-hook lifecycle.

    Python objects are a small tagged union, exceptions are values of a
    result type, and every call into a collaborator (population, operators,
    hooks, the MPI helper, the user's fitness function) is a computation in
    a state-and-exception monad over an abstract world [W]: it may change
    the world and may raise.  Collaborators read the engine and do not
    assign its attributes; only [run] and the decorators do.  Beside the
    engine and the world, the machine [run] works on keeps a record of the
    calls made to the analysis hooks.  The lifecycle properties are stated
    on the world, where the hooks act, by the calls each hook loop makes
    and their arguments, and on that record, for the order and the number
    of the calls. *)

From Stdlib Require Import ZArith String List Bool Lia.
From Stdlib Require Import PrimFloat SpecFloat FloatOps.
From stdpp Require Import base list.

Set Warnings "-inexact-float".
Local Open Scope string_scope.
Local Open Scope Z_scope.

(** ** Python objects and exceptions *)

(** A [GAIndividual] is an object; the engine never looks inside one, so it
    is modelled by its identity. *)
Definition GAIndividual := nat.

Inductive pyobj :=
| PyNone
| PyInt (z : Z)
| PyFloat (f : float)
| PyStr (s : string)
| PyIndv (i : GAIndividual).
Arguments PyIndv i%_nat.

(** The exception classes the engine raises or meets.  [UserException]
    stands for any other subclass of [Exception] a collaborator raises,
    [NonException] for a [BaseException] that is no [Exception]
    (KeyboardInterrupt, SystemExit). *)
Inductive exn_class :=
| AttributeError
| TypeError
| ValueError
| IndexError
| ZeroDivisionError
| OverflowError
| UserException (tag : nat)
| NonException (tag : nat).

(** An exception object: its class, the message template and the values
    [str.format] fills in. *)
Inductive exn :=
| Exn (cls : exn_class) (msg : string) (args : list pyobj).

Definition exn_cls (e : exn) : exn_class :=
  match e with Exn c _ _ => c end.

(** [isinstance(e, Exception)], what [except Exception] tests. *)
Definition is_Exception (e : exn) : bool :=
  match exn_cls e with
  | NonException _ => false
  | _ => true
  end.

Inductive result (A : Type) :=
| Ok (a : A)
| Raise (e : exn).
Arguments Ok {A} a.
Arguments Raise {A} e.

(** [type(v).__name__], used in messages. *)
Definition type_name (v : pyobj) : string :=
  match v with
  | PyNone => "NoneType"
  | PyInt _ => "int"
  | PyFloat _ => "float"
  | PyStr _ => "str"
  | PyIndv _ => "GAIndividual"
  end.

(** [isinstance(v, GAIndividual)]. *)
Definition isinstance_GAIndividual (v : pyobj) : bool :=
  match v with
  | PyIndv _ => true
  | _ => false
  end.

(** ** The state-and-exception monad

    A computation runs on a state, returns a value or raises, and leaves a
    state behind either way: an exception rolls nothing back. *)
Definition M (S A : Type) : Type := S -> result A * S.

Definition ret {S A} (a : A) : M S A := fun s => (Ok a, s).

Definition raise {S A} (e : exn) : M S A := fun s => (Raise e, s).

Definition bind {S A B} (m : M S A) (k : A -> M S B) : M S B :=
  fun s =>
    match m s with
    | (Ok a, s') => k a s'
    | (Raise e, s') => (Raise e, s')
    end.

Notation "'let*' x ':=' m 'in' k" := (bind m (fun x => k))
  (at level 10, x name, m at level 100, k at level 200).
Notation "m '>>' k" := (bind m (fun _ => k))
  (at level 65, right associativity).

(** A pure, fallible step ([result]) as a computation. *)
Definition lift_result {S A} (r : result A) : M S A := fun s => (r, s).

Definition modify {S} (f : S -> S) : M S unit := fun s => (Ok tt, f s).

(** [for x in xs: body(x)]: the first exception ends the loop. *)
Fixpoint for_each {S A} (xs : list A) (body : A -> M S unit) : M S unit :=
  match xs with
  | [] => ret tt
  | x :: xs' => body x >> for_each xs' body
  end.

(** [[f(x) for x in xs]]. *)
Fixpoint list_comprehension {S A B} (f : A -> M S B) (xs : list A) : M S (list B) :=
  match xs with
  | [] => ret []
  | x :: xs' =>
      let* y := f x in
      let* ys := list_comprehension f xs' in
      ret (y :: ys)
  end.

(** [range(n)]: empty when [n <= 0]. *)
Definition range (n : Z) : list Z := map Z.of_nat (seq 0 (Z.to_nat n)).

(** [try: body  except Exception as e: handler(e)]: the handler sees only
    subclasses of [Exception]. *)
Definition try_except {S A} (body : M S A) (handler : exn -> M S A) : M S A :=
  fun s =>
    match body s with
    | (Ok a, s') => (Ok a, s')
    | (Raise e, s') => if is_Exception e then handler e s' else (Raise e, s')
    end.

(** [try: body  finally: cleanup]: the cleanup runs on every exit of the
    body; when it raises, its exception replaces the body's outcome. *)
Definition try_finally {S A} (body : M S A) (cleanup : M S unit) : M S A :=
  fun s =>
    match body s with
    | (r, s') =>
        match cleanup s' with
        | (Ok _, s'') => (r, s'')
        | (Raise e, s'') => (Raise e, s'')
        end
    end.

(** ** Python arithmetic on ints and floats *)

(** [float(z)] for an int: correctly rounded, [OverflowError] past the
    largest double. *)
Definition float_of_Z (z : Z) : float :=
  SF2Prim (binary_normalize prec emax z 0 false).

Definition float_of_int (z : Z) : result float :=
  let f := float_of_Z z in
  if is_infinity f
  then Raise (Exn OverflowError "int too large to convert to float" [])
  else Ok f.

Definition unsupported (op : string) (a b : pyobj) : exn :=
  Exn TypeError "unsupported operand type(s) for {}: '{}' and '{}'"
      [PyStr op; PyStr (type_name a); PyStr (type_name b)].

Definition rbind {A B} (r : result A) (k : A -> result B) : result B :=
  match r with
  | Ok a => k a
  | Raise e => Raise e
  end.

(** [a - b]. *)
Definition py_sub (a b : pyobj) : result pyobj :=
  match a, b with
  | PyInt x, PyInt y => Ok (PyInt (x - y))
  | PyInt x, PyFloat y => rbind (float_of_int x) (fun fx => Ok (PyFloat (fx - y)))
  | PyFloat x, PyInt y => rbind (float_of_int y) (fun fy => Ok (PyFloat (x - fy)))
  | PyFloat x, PyFloat y => Ok (PyFloat (x - y))
  | _, _ => Raise (unsupported "-" a b)
  end.

(** [a + b]. *)
Definition py_add (a b : pyobj) : result pyobj :=
  match a, b with
  | PyInt x, PyInt y => Ok (PyInt (x + y))
  | PyInt x, PyFloat y => rbind (float_of_int x) (fun fx => Ok (PyFloat (fx + y)))
  | PyFloat x, PyInt y => rbind (float_of_int y) (fun fy => Ok (PyFloat (x + fy)))
  | PyFloat x, PyFloat y => Ok (PyFloat (x + y))
  | PyStr x, PyStr y => Ok (PyStr (String.append x y))
  | _, _ => Raise (unsupported "+" a b)
  end.

(** [s * n] for a string: [n] copies, none when [n <= 0]. *)
Definition str_repeat (s : string) (n : Z) : string :=
  String.concat "" (repeat s (Z.to_nat n)).

(** [a * b]. *)
Definition py_mul (a b : pyobj) : result pyobj :=
  match a, b with
  | PyInt x, PyInt y => Ok (PyInt (x * y))
  | PyInt x, PyFloat y => rbind (float_of_int x) (fun fx => Ok (PyFloat (fx * y)))
  | PyFloat x, PyInt y => rbind (float_of_int y) (fun fy => Ok (PyFloat (x * fy)))
  | PyFloat x, PyFloat y => Ok (PyFloat (x * y))
  | PyStr x, PyInt y => Ok (PyStr (str_repeat x y))
  | PyInt x, PyStr y => Ok (PyStr (str_repeat y x))
  | _, _ => Raise (unsupported "*" a b)
  end.

(** [a ** k] for an int exponent [k].  The float power goes to the C
    library's [pow], whose rounding the language leaves open: it is the
    parameter [float_pow] (which also raises what CPython raises around
    it). *)
Definition py_pow (float_pow : float -> Z -> result float)
    (a : pyobj) (k : Z) : result pyobj :=
  match a with
  | PyInt x =>
      if 0 <=? k then Ok (PyInt (x ^ k))
      else if x =? 0
      then Raise (Exn ZeroDivisionError "0.0 cannot be raised to a negative power" [])
      else rbind (float_of_int x) (fun fx =>
           rbind (float_pow fx k) (fun p => Ok (PyFloat p)))
  | PyFloat x => rbind (float_pow x k) (fun p => Ok (PyFloat p))
  | _ => Raise (unsupported "** or pow()" a (PyInt k))
  end.

(** A reference [float_pow]: repeated multiplication, exact for the
    exponents 0 and 1. *)
Fixpoint pow_iter (x : float) (n : nat) : float :=
  match n with
  | O => 1%float
  | S O => x
  | S n' => (x * pow_iter x n')%float
  end.

Definition float_pow_iter (x : float) (k : Z) : result float :=
  if 0 <=? k then Ok (pow_iter x (Z.to_nat k))
  else Ok (1 / pow_iter x (Z.to_nat (- k)))%float.

(** ** The engine's data model *)

(** Modelled from the spec: [GAPopulation] (gaft/components) is not among
    the sources.  The engine uses its writable sequence [individuals] and
    its readable attribute [size]; its reductions [max], [min], [mean] and
    [best_indv] are parameters of the development (see [Runtime]). *)
Record GAPopulation := {
  individuals : list GAIndividual;
  size : Z;
}.

(** The data attributes of [self] that fitness closures, operators and
    hooks read. *)
Record GAEngineState := {
  population : GAPopulation;
  fmax : pyobj;
  fmin : pyobj;
  fmean : pyobj;
  current_generation : Z;
}.

(** What the engine records about its calls into the analysis hooks; [i]
    is the hook's position in [self.analysis], its registration order. *)
Inductive event :=
| SetupCall (i : nat) (ng : Z)
| RegisterStepCall (i : nat) (g : Z)
| FinalizeCall (i : nat)
| LoggedException (e : exn).

Section Model.
Context {W : Type}.

(** A fitness callable.  The closures the engine builds read [self.fmin],
    [self.fmax] and [self.current_generation] when they are called: they
    take the engine's state of that moment as an argument. *)
Definition fitness_fn : Type := GAEngineState -> pyobj -> M W pyobj.

(** Modelled from the spec: the plugin interfaces
    (gaft/plugin_interfaces) are not among the sources.  Each is the
    capability the engine calls: [select(population, fitness)],
    [cross(father, mother)], [mutate(child, engine)], and for an analysis hook
    the attribute [interval] and the methods [setup], [register_step] and
    [finalize]. *)
Record GASelection := {
  select : GAPopulation -> (pyobj -> M W pyobj) -> M W (list GAIndividual);
}.

Record GACrossover := {
  cross : list GAIndividual -> M W (list GAIndividual);
}.

Record GAMutation := {
  mutate : GAIndividual -> GAEngineState -> M W GAIndividual;
}.

Record OnTheFlyAnalysis := {
  interval : Z;
  setup : Z -> GAEngineState -> M W unit;
  register_step : Z -> GAPopulation -> GAEngineState -> M W unit;
  finalize : GAPopulation -> GAEngineState -> M W unit;
}.

Record GAEngine := {
  state : GAEngineState;
  fitness : option fitness_fn;
  ori_fitness : option fitness_fn;
  selection : GASelection;
  crossover : GACrossover;
  mutation : GAMutation;
  analysis : list OnTheFlyAnalysis;
}.

(** What the engine takes from outside [engine.py], as parameters: the
    reductions of [GAPopulation], the helpers [split_size], [merge_seq]
    and [is_master] of [mpiutil.mpi], and the C library's [pow] behind
    [float ** int]. *)
Class Runtime := {
  float_pow : float -> Z -> result float;
  pop_max : GAPopulation -> (pyobj -> M W pyobj) -> M W pyobj;
  pop_min : GAPopulation -> (pyobj -> M W pyobj) -> M W pyobj;
  pop_mean : GAPopulation -> (pyobj -> M W pyobj) -> M W pyobj;
  pop_best_indv : GAPopulation -> (pyobj -> M W pyobj) -> M W GAIndividual;
  split_size : Z -> M W Z;
  merge_seq : list GAIndividual -> M W (list GAIndividual);
  is_master : bool;
}.
Context {RT : Runtime}.

(** Attribute assignments. *)
Definition set_individuals (l : list GAIndividual) (p : GAPopulation) : GAPopulation :=
  {| individuals := l; size := size p |}.

Definition set_population (p : GAPopulation) (st : GAEngineState) : GAEngineState :=
  {| population := p; fmax := fmax st; fmin := fmin st; fmean := fmean st;
     current_generation := current_generation st |}.

Definition set_fmax (v : pyobj) (st : GAEngineState) : GAEngineState :=
  {| population := population st; fmax := v; fmin := fmin st; fmean := fmean st;
     current_generation := current_generation st |}.

Definition set_fmin (v : pyobj) (st : GAEngineState) : GAEngineState :=
  {| population := population st; fmax := fmax st; fmin := v; fmean := fmean st;
     current_generation := current_generation st |}.

Definition set_fmean (v : pyobj) (st : GAEngineState) : GAEngineState :=
  {| population := population st; fmax := fmax st; fmin := fmin st; fmean := v;
     current_generation := current_generation st |}.

Definition set_current_generation (g : Z) (st : GAEngineState) : GAEngineState :=
  {| population := population st; fmax := fmax st; fmin := fmin st; fmean := fmean st;
     current_generation := g |}.

Definition set_state (st : GAEngineState) (e : GAEngine) : GAEngine :=
  {| state := st; fitness := fitness e; ori_fitness := ori_fitness e;
     selection := selection e; crossover := crossover e; mutation := mutation e;
     analysis := analysis e |}.

Definition set_fitness (f : option fitness_fn) (e : GAEngine) : GAEngine :=
  {| state := state e; fitness := f; ori_fitness := ori_fitness e;
     selection := selection e; crossover := crossover e; mutation := mutation e;
     analysis := analysis e |}.

Definition set_ori_fitness (f : option fitness_fn) (e : GAEngine) : GAEngine :=
  {| state := state e; fitness := fitness e; ori_fitness := f;
     selection := selection e; crossover := crossover e; mutation := mutation e;
     analysis := analysis e |}.

Definition set_analysis (l : list OnTheFlyAnalysis) (e : GAEngine) : GAEngine :=
  {| state := state e; fitness := fitness e; ori_fitness := ori_fitness e;
     selection := selection e; crossover := crossover e; mutation := mutation e;
     analysis := l |}.

(** ** [GAEngine.__init__]

    The [isinstance] tests of [_check_parameters] are carried by the
    argument types.  An analysis class is the function building its
    instance. *)
Definition GAEngine_init (population : GAPopulation) (selection : GASelection)
    (crossover : GACrossover) (mutation : GAMutation)
    (fitness : option fitness_fn)
    (analysis : option (list (unit -> OnTheFlyAnalysis))) : GAEngine :=
  (* Attributes assignment. *)
  let self :=
    {| state := {| population := population; fmax := PyNone; fmin := PyNone;
                   fmean := PyNone; current_generation := -1 |};
       fitness := fitness;
       ori_fitness := None;
       selection := selection;
       crossover := crossover;
       mutation := mutation;
       analysis := match analysis with
                   | None => []
                   | Some classes => map (fun a => a tt) classes
                   end |} in
  (* Default fitness functions:  self.ori_fitness, self.fitness = None, None *)
  let self := set_ori_fitness None self in
  let self := set_fitness None self in
  self.

(** ** Decorators *)

(** [is_invalid = (type(fitness) is not float) or (math.isnan(fitness))]. *)
Definition is_invalid (fitness : pyobj) : bool :=
  match fitness with
  | PyFloat f => is_nan f
  | _ => true
  end.

Definition _fn_with_fitness_check (fn : fitness_fn) : fitness_fn :=
  fun st indv =>
    (* Check indv type. *)
    if negb (isinstance_GAIndividual indv)
    then raise (Exn TypeError "indv must be a GAIndividual object" [])
    else
      (* Check fitness. *)
      let* fitness := fn st indv in
      if is_invalid fitness
      then raise (Exn ValueError "Fitness value(value: {}, type: {}) is invalid"
                      [fitness; PyStr (type_name fitness)])
      else ret fitness.

Definition fitness_register (fn : fitness_fn) (self : GAEngine) : GAEngine :=
  let self := set_fitness (Some (_fn_with_fitness_check fn)) self in
  match ori_fitness self with
  | None => set_ori_fitness (Some (_fn_with_fitness_check fn)) self
  | Some _ => self
  end.

(** [analysis_register]: one more instance at the end of the registry. *)
Definition analysis_register (analysis_cls : unit -> OnTheFlyAnalysis)
    (self : GAEngine) : GAEngine :=
  set_analysis (analysis self ++ [analysis_cls tt])%list self.

(** ** Fitness scaling *)

Definition invalid_target (target : string) : exn :=
  Exn ValueError "Invalid target type({})" [PyStr target].

Definition _fn_with_linear_scaling (target : string) (ksi : pyobj)
    (fn : fitness_fn) : fitness_fn :=
  fun st indv =>
    (* Original fitness value. *)
    let* f := fn st indv in
    if String.eqb target "max" then
      let* d := lift_result (py_sub f (fmin st)) in
      lift_result (py_add d ksi)
    else if String.eqb target "min" then
      let* d := lift_result (py_sub (fmax st) f) in
      lift_result (py_add d ksi)
    else raise (invalid_target target).

(** [linear_scaling(target, ksi)(fn)]: records [fn] as the original
    fitness and returns the scaled function. *)
Definition linear_scaling (target : string) (ksi : pyobj) (fn : fitness_fn)
    (self : GAEngine) : fitness_fn * GAEngine :=
  (_fn_with_linear_scaling target ksi fn, set_ori_fitness (Some fn) self).

Definition _fn_with_dynamic_linear_scaling (target : string) (ksi0 r : pyobj)
    (fn : fitness_fn) : fitness_fn :=
  fun st indv =>
    let* f := fn st indv in
    let k := current_generation st + 1 in
    if String.eqb target "max" then
      let* d := lift_result (py_sub f (fmin st)) in
      let* p := lift_result (py_pow float_pow r k) in
      let* t := lift_result (py_mul ksi0 p) in
      lift_result (py_add d t)
    else if String.eqb target "min" then
      let* d := lift_result (py_sub (fmax st) f) in
      let* p := lift_result (py_pow float_pow r k) in
      let* t := lift_result (py_mul ksi0 p) in
      lift_result (py_add d t)
    else raise (invalid_target target).

(** The decaying adjustment on its own: [ksi0 * (r ** k)]. *)
Definition adjustment (ksi0 r : pyobj) (k : Z) : result pyobj :=
  rbind (py_pow float_pow r k) (py_mul ksi0).

Definition dynamic_linear_scaling (target : string) (ksi0 r : pyobj)
    (fn : fitness_fn) (self : GAEngine) : fitness_fn * GAEngine :=
  (_fn_with_dynamic_linear_scaling target ksi0 r fn, set_ori_fitness (Some fn) self).

(** ** [GAEngine.run]

    [run] works on the engine object, the world of its collaborators and
    the record of hook calls. *)
Record machine := {
  engine : GAEngine;
  world : W;
  trace : list event;
}.

(** The machine after a collaborator changed the world, after an
    assignment to the data attributes, and after one more recorded event. *)
Definition with_world (w : W) (s : machine) : machine :=
  {| engine := engine s; world := w; trace := trace s |}.

Definition with_state (st : GAEngineState) (s : machine) : machine :=
  {| engine := set_state st (engine s); world := world s; trace := trace s |}.

Definition with_event (ev : event) (s : machine) : machine :=
  {| engine := engine s; world := world s; trace := (trace s ++ [ev])%list |}.

(** A call into a collaborator: it runs on the world and leaves the engine
    as it is. *)
Definition call {A} (m : M W A) : M machine A :=
  fun s =>
    match m (world s) with
    | (r, w) => (r, with_world w s)
    end.

Definition self : M machine GAEngine := fun s => (Ok (engine s), s).

(** [self.<attribute> = ...] on the data attributes. *)
Definition assign (f : GAEngineState -> GAEngineState) : M machine unit :=
  modify (fun s => with_state (f (state (engine s))) s).

Definition record (ev : event) : M machine unit :=
  modify (with_event ev).

(** Calling an attribute that holds a function, or [None]. *)
Definition callable (f : option fitness_fn) : fitness_fn :=
  match f with
  | Some fn => fn
  | None => fun _ _ => raise (Exn TypeError "'NoneType' object is not callable" [])
  end.

(** [enumerate(l)]; the position only labels the recorded events. *)
Definition enumerate {A} (l : list A) : list (nat * A) :=
  combine (seq 0 (length l)) l.

(** [l[i] = x]. *)
Definition list_setitem {A} (l : list A) (i : nat) (x : A) : result (list A) :=
  if (i <? length l)%nat then Ok (<[i := x]> l)
  else Raise (Exn IndexError "list assignment index out of range" []).

(** [for _ in range(n): acc = body(acc)]. *)
Fixpoint iterate {S A} (n : nat) (body : A -> M S A) (acc : A) : M S A :=
  match n with
  | O => ret acc
  | S n' => let* acc' := body acc in iterate n' body acc'
  end.

(** The three statistics, over the original fitness, one after another. *)
Definition update_statistics : M machine unit :=
  let* e := self in
  let* v := call (pop_max (population (state e)) (callable (ori_fitness e) (state e))) in
  assign (set_fmax v) >>
  let* e := self in
  let* v := call (pop_min (population (state e)) (callable (ori_fitness e) (state e))) in
  assign (set_fmin v) >>
  let* e := self in
  let* v := call (pop_mean (population (state e)) (callable (ori_fitness e) (state e))) in
  assign (set_fmean v).

Definition setup_hooks (ng : Z) : M machine unit :=
  let* e := self in
  for_each (enumerate (analysis e)) (fun ia =>
    record (SetupCall (fst ia) ng) >>
    let* e := self in
    call (setup (snd ia) ng (state e))).

(** One series of genetic operations: two parents, their children, each
    child mutated, the children collected. *)
Definition reproduce (local_indvs : list GAIndividual) : M machine (list GAIndividual) :=
  let* e := self in
  (* Select father and mother. *)
  let* parents := call (select (selection e) (population (state e))
                               (callable (fitness e) (state e))) in
  (* Crossover. *)
  let* children := call (cross (crossover e) parents) in
  (* Mutation. *)
  let* children := list_comprehension
                     (fun child => call (mutate (mutation e) child (state e)))
                     children in
  (* Collect children. *)
  ret (local_indvs ++ children)%list.

(** Run all analysis if needed. *)
Definition dispatch (g : Z) : M machine unit :=
  let* e := self in
  for_each (enumerate (analysis e)) (fun ia =>
    if interval (snd ia) =? 0
    then raise (Exn ZeroDivisionError "integer division or modulo by zero" [])
    else if g mod interval (snd ia) =? 0
    then
      record (RegisterStepCall (fst ia) g) >>
      let* e := self in
      call (register_step (snd ia) g (population (state e)) (state e))
    else ret tt).

(** The body of [for g in range(ng)]. *)
Definition generation (g : Z) : M machine unit :=
  assign (set_current_generation g) >>
  let* e := self in
  (* The best individual in current population. *)
  let* best_indv := call (pop_best_indv (population (state e))
                                        (callable (fitness e) (state e))) in
  (* Scatter jobs to all processes. *)
  let* local_size := call (split_size (size (population (state e)) / 2)) in
  (* Fill the new population. *)
  let* local_indvs := iterate (Z.to_nat local_size) reproduce [] in
  (* Gather individuals from all processes. *)
  let* indvs := call (merge_seq local_indvs) in
  (* Retain the previous best individual. *)
  let* indvs := lift_result (list_setitem indvs 0 best_indv) in
  (* The next generation. *)
  assign (fun st => set_population (set_individuals indvs (population st)) st) >>
  (* Update population maxima and minima. *)
  update_statistics >>
  dispatch g.

(** The [except Exception as e] clause: log on the master, raise again. *)
Definition log_and_reraise (e : exn) : M machine unit :=
  (if is_master then record (LoggedException e) else ret tt) >>
  raise e.

Definition finalize_hooks : M machine unit :=
  let* e := self in
  for_each (enumerate (analysis e)) (fun ia =>
    record (FinalizeCall (fst ia)) >>
    let* e := self in
    call (finalize (snd ia) (population (state e)) (state e))).

(** The [finally] clause. *)
Definition run_finally : M machine unit :=
  (* Recover current generation number. *)
  assign (set_current_generation (-1)) >>
  (* Perform the analysis post processing. *)
  finalize_hooks.

(** The [try] statement of [run]: the evolution iteration. *)
Definition run_loop (ng : Z) : M machine unit :=
  try_finally
    (try_except (for_each (range ng) generation) log_and_reraise)
    run_finally.

Definition no_fitness : exn :=
  Exn AttributeError "No fitness function in GA engine" [].

Definition run (ng : Z) : M machine unit :=
  let* e := self in
  match fitness e with
  | None => raise no_fitness
  | Some _ =>
      (* Get the maxima and minima in population for fitness scaling. *)
      update_statistics >>
      (* Setup analysis objects. *)
      setup_hooks ng >>
      (* Enter evolution iteration. *)
      run_loop ng
  end.

(** ** The hook calls a run is expected to make

    Written from the lifecycle rules: [setup] once per hook before the
    first generation, [register_step] on the generations the hook's
    interval divides, [finalize] once per hook at the end; each in
    registration order. *)
Definition expected_setup_calls (hooks : list OnTheFlyAnalysis) (ng : Z) : list event :=
  map (fun i => SetupCall i ng) (seq 0 (length hooks)).

Definition expected_finalize_calls (hooks : list OnTheFlyAnalysis) : list event :=
  map FinalizeCall (seq 0 (length hooks)).

Definition expected_register_steps (hooks : list OnTheFlyAnalysis) (g : Z) : list event :=
  flat_map (fun ia => if g mod interval (snd ia) =? 0
                      then [RegisterStepCall (fst ia) g]
                      else [])
           (enumerate hooks).

(** What one [run] adds to the record when it returns normally. *)
Definition expected_trace (hooks : list OnTheFlyAnalysis) (ng : Z) : list event :=
  (expected_setup_calls hooks ng
   ++ flat_map (expected_register_steps hooks) (range ng)
   ++ expected_finalize_calls hooks)%list.

(** [run] up to the [try] statement: the fitness test, the first
    statistics and the hook setup. *)
Definition run_prelude (ng : Z) : M machine unit :=
  let* e := self in
  match fitness e with
  | None => raise no_fitness
  | Some _ => update_statistics >> setup_hooks ng
  end.

(** The machine after the [except] clause, given how the loop ended. *)
Definition after_except (r : result unit) (s : machine) : machine :=
  match r with
  | Ok _ => s
  | Raise e =>
      if is_Exception e
      then if is_master then with_event (LoggedException e) s else s
      else s
  end.

(** The invariant of a run: the hook registry stays what it was. *)
Definition registry (hooks : list OnTheFlyAnalysis) : machine -> Prop :=
  fun s => analysis (engine s) = hooks.

(** ** Contracts of the collaborators

    One reproduction unit yields exactly two offspring; and the
    single-process coordinator: [split(n) = n], [merge(seq)] as long as
    [seq]. *)
Definition binary_crossover (c : GACrossover) : Prop :=
  forall parents w children w',
    cross c parents w = (Ok children, w') -> length children = 2%nat.

Definition single_process : Prop :=
  (forall n w k w', split_size n w = (Ok k, w') -> k = n) /\
  (forall l w merged w', merge_seq l w = (Ok merged, w') -> length merged = length l).

(** A full population under a given crossover: as many individuals as
    its [size] says. *)
Definition full (n : Z) (c : GACrossover) : machine -> Prop :=
  fun s =>
    size (population (state (engine s))) = n /\
    crossover (engine s) = c /\
    Z.of_nat (length (individuals (population (state (engine s))))) = n.

(** ** Specifications of computations on the machine *)

(** [m] keeps the invariant [P], however it ends. *)
Definition preserves {A} (P : machine -> Prop) (m : M machine A) : Prop :=
  forall s r s', P s -> m s = (r, s') -> P s'.

(** [m] keeps [P] and adds to the record a prefix of [F]: all of [F] when
    it returns. *)
Definition emits (P : machine -> Prop) (F : list event) (m : M machine unit) : Prop :=
  forall s r s', P s -> m s = (r, s') ->
    P s' /\
    exists evs, trace s' = (trace s ++ evs)%list /\
                evs `prefix_of` F /\
                (r = Ok tt -> evs = F).

End Model.

Arguments GASelection : clear implicits.
Arguments GACrossover : clear implicits.
Arguments GAMutation : clear implicits.
Arguments OnTheFlyAnalysis : clear implicits.
Arguments GAEngine : clear implicits.
Arguments Runtime : clear implicits.
Arguments machine : clear implicits.
Arguments fitness_fn : clear implicits.

(** ** Construction and registration with their type tests

    [__init__] and [analysis_register] receive arbitrary objects and test
    their classes.  The objects such an argument can be: an instance of
    one of the five classes the engine knows, or anything else, given by
    the name of its class and its [__name__] attribute when it has one
    (an ordinary instance has none). *)
Section Construction.
Context {W : Type} {RT : Runtime W}.

Inductive object :=
| APopulation (p : GAPopulation)
| ASelection (s : GASelection W)
| ACrossover (c : GACrossover W)
| AMutation (m : GAMutation W)
| AnAnalysis (a : OnTheFlyAnalysis W)
| Foreign (cls : string) (name : option string).

(** [type(o).__name__]. *)
Definition class_of (o : object) : string :=
  match o with
  | APopulation _ => "GAPopulation"
  | ASelection _ => "GASelection"
  | ACrossover _ => "GACrossover"
  | AMutation _ => "GAMutation"
  | AnAnalysis _ => "OnTheFlyAnalysis"
  | Foreign cls _ => cls
  end.

(** [o.__name__]: instances of the engine's classes have none. *)
Definition getattr_name (o : object) : result string :=
  match o with
  | Foreign _ (Some name) => Ok name
  | _ => Raise (Exn AttributeError "'{}' object has no attribute '__name__'"
                    [PyStr (class_of o)])
  end.

(** The loop of [_check_parameters] over [self.analysis]: the first
    object that is no [OnTheFlyAnalysis] ends it, in [TypeError] when the
    message can be built. *)
Fixpoint check_analysis (analysis : list object) : result (list (OnTheFlyAnalysis W)) :=
  match analysis with
  | [] => Ok []
  | ap :: rest =>
      match ap with
      | AnAnalysis a => rbind (check_analysis rest) (fun hooks => Ok (a :: hooks))
      | _ =>
          rbind (getattr_name ap) (fun name =>
          Raise (Exn TypeError "{} is not subclass of OnTheFlyAnalysis" [PyStr name]))
      end
  end.

(** [_check_parameters]: the four collaborators in turn, then the hooks.
    What passes is returned with its type known. *)
Definition _check_parameters (population selection crossover mutation : object)
    (analysis : list object) :
    result (GAPopulation * GASelection W * GACrossover W * GAMutation W
            * list (OnTheFlyAnalysis W)) :=
  match population with
  | APopulation p =>
      match selection with
      | ASelection sel =>
          match crossover with
          | ACrossover cro =>
              match mutation with
              | AMutation mut =>
                  rbind (check_analysis analysis) (fun hooks =>
                  Ok (p, sel, cro, mut, hooks))
              | _ => Raise (Exn TypeError
                              "mutation operator must be a GAMutation instance" [])
              end
          | _ => Raise (Exn TypeError
                          "crossover operator must be a GACrossover instance" [])
          end
      | _ => Raise (Exn TypeError
                      "selection operator must be a GASelection instance" [])
      end
  | _ => Raise (Exn TypeError "population must be a GAPopulation object" [])
  end.

(** [[] if analysis is None else [a() for a in analysis]]. *)
Definition instantiate (analysis : option (list (M W object))) : M W (list object) :=
  match analysis with
  | None => ret []
  | Some classes => list_comprehension (fun a => a) classes
  end.

(** [GAEngine(population, selection, crossover, mutation, fitness,
    analysis)] on arbitrary objects: the entries of [analysis] are called
    one after another, then the parameters are checked.  An entry of
    [analysis] is what calling it does. *)
Definition GAEngine_new (population selection crossover mutation : object)
    (fitness : option (fitness_fn W))
    (analysis : option (list (M W object))) : M W (GAEngine W) :=
  let* instances := instantiate analysis in
  let* checked :=
    lift_result (_check_parameters population selection crossover mutation instances) in
  match checked with
  | (p, sel, cro, mut, hooks) =>
      ret (GAEngine_init p sel cro mut fitness (Some (map (fun a _ => a) hooks)))
  end.

(** What [analysis_register] can be given: a subclass of
    [OnTheFlyAnalysis], by what calling it does; another class; or
    something that is no class, on which [issubclass] itself raises. *)
Inductive class_object :=
| AnalysisSubclass (new : M W (OnTheFlyAnalysis W))
| OtherClass (name : string)
| NoClass (v : pyobj).

(** [analysis_register] with its [issubclass] test. *)
Definition analysis_register_checked (analysis_cls : class_object)
    (self : GAEngine W) : M W (GAEngine W) :=
  match analysis_cls with
  | AnalysisSubclass new =>
      (* Add analysis instance to engine. *)
      let* instance := new in
      ret (set_analysis (analysis self ++ [instance])%list self)
  | OtherClass _ =>
      raise (Exn TypeError "analysis class must be subclass of OnTheFlyAnalysis" [])
  | NoClass _ =>
      raise (Exn TypeError "issubclass() arg 1 must be a class" [])
  end.

(** ** What the further properties are stated with *)

(** The engine right after a successful construction. *)
Definition fresh_engine (p : GAPopulation) (sel : GASelection W) (cro : GACrossover W)
    (mut : GAMutation W) (hooks : list (OnTheFlyAnalysis W)) : GAEngine W :=
  {| state := {| population := p; fmax := PyNone; fmin := PyNone; fmean := PyNone;
                 current_generation := -1 |};
     fitness := None;
     ori_fitness := None;
     selection := sel;
     crossover := cro;
     mutation := mut;
     analysis := hooks |}.

(** What the fitness check makes of a float. *)
Definition checked_float (a : float) : result pyobj :=
  if is_nan a
  then Raise (Exn ValueError "Fitness value(value: {}, type: {}) is invalid"
                  [PyFloat a; PyStr "float"])
  else Ok (PyFloat a).

(** What the [except] clause of [run] adds to the record. *)
Definition logged (r : result unit) : list event :=
  match r with
  | Ok _ => []
  | Raise e => if is_Exception e && is_master then [LoggedException e] else []
  end.

(** ** The hook calls on the world

    What a hook loop of [run] does to the world of the collaborators: the
    calls of that loop, each with the arguments the source passes, made
    one after the other on the world; the first that raises ends them. *)
Definition in_turn (calls : list (M W unit)) : M W unit :=
  for_each calls (fun c => c).

(** [a.setup(ng=ng, engine=self)], for every hook. *)
Definition setup_calls (hooks : list (OnTheFlyAnalysis W)) (ng : Z)
    (st : GAEngineState) : list (M W unit) :=
  map (fun a => setup a ng st) hooks.

(** [if g % a.interval == 0: a.register_step(g=g,
    population=self.population, engine=self)], for every hook; the
    remainder by an interval of 0 raises. *)
Definition register_step_calls (hooks : list (OnTheFlyAnalysis W)) (g : Z)
    (st : GAEngineState) : list (M W unit) :=
  flat_map (fun a =>
              if interval a =? 0
              then [raise (Exn ZeroDivisionError "integer division or modulo by zero" [])]
              else if g mod interval a =? 0
              then [register_step a g (population st) st]
              else [])
           hooks.

(** [a.finalize(population=self.population, engine=self)], for every
    hook. *)
Definition finalize_calls (hooks : list (OnTheFlyAnalysis W))
    (st : GAEngineState) : list (M W unit) :=
  map (fun a => finalize a (population st) st) hooks.


(** The machine the [finally] clause starts its hook loop on: the loop's
    machine with the counter back at -1. *)
Definition at_cleanup (s : machine W) : machine W :=
  with_state (set_current_generation (-1) (state (engine s))) s.

(** ** The coordinator of a worker group

    Modelled from the spec: [mpiutil] is not among the sources.  For a
    population of [n] individuals the group shares [n // 2] reproduction
    units; whatever share [k] this worker gets, the merge of its [2 * k]
    offspring with the offspring of the other workers has [n]
    individuals. *)
Definition coordinator (n : Z) : Prop :=
  forall w k w1 l w2 merged w3,
    split_size (n / 2) w = (Ok k, w1) ->
    length l = (2 * Z.to_nat k)%nat ->
    merge_seq l w2 = (Ok merged, w3) ->
    Z.of_nat (length merged) = n.

End Construction.

Arguments object : clear implicits.
Arguments class_object : clear implicits.

(** ** A concrete single-process deployment

    The world counts the calls of the user's fitness function.  The
    population reductions evaluate the scoring function on every individual
    in order; selection takes the first two individuals, crossover and
    mutation return their arguments (crossover in the other order);
    [split(n) = n] and [merge(seq) = seq]. *)
Module Demo.

Definition World := nat.

(** The user's raw fitness: the individual's number as a float. *)
Definition raw_fitness : fitness_fn World :=
  fun _ x w =>
    match x with
    | PyIndv i => (Ok (PyFloat (float_of_Z (Z.of_nat i))), S w)
    | _ => (Ok (PyFloat 0), S w)
    end.

(** A raw fitness that returns the same value everywhere. *)
Definition const_fitness (v : pyobj) : fitness_fn World :=
  fun _ _ w => (Ok v, S w).

Definition scores (p : GAPopulation) (f : pyobj -> M World pyobj) : M World (list pyobj) :=
  list_comprehension (fun i => f (PyIndv i)) (individuals p).

Definition float_value (v : pyobj) : float :=
  match v with
  | PyFloat f => f
  | _ => nan
  end.

Definition larger (a b : pyobj) : pyobj :=
  if (float_value a <? float_value b)%float then b else a.

Definition smaller (a b : pyobj) : pyobj :=
  if (float_value b <? float_value a)%float then b else a.

Definition empty_sequence : exn :=
  Exn ValueError "arg is an empty sequence" [].

Definition reduce (op : pyobj -> pyobj -> pyobj) (p : GAPopulation)
    (f : pyobj -> M World pyobj) : M World pyobj :=
  let* vs := scores p f in
  match vs with
  | [] => raise empty_sequence
  | v :: vs' => ret (fold_left op vs' v)
  end.

Definition mean (p : GAPopulation) (f : pyobj -> M World pyobj) : M World pyobj :=
  let* vs := scores p f in
  match vs with
  | [] => raise empty_sequence
  | _ =>
      let total := fold_left (fun acc v => (acc + float_value v)%float) vs 0%float in
      ret (PyFloat (total / float_of_Z (Z.of_nat (length vs))))
  end.

(** The first individual with the largest score. *)
Fixpoint argmax (best : GAIndividual) (best_score : float)
    (l : list (GAIndividual * pyobj)) : GAIndividual :=
  match l with
  | [] => best
  | (i, v) :: l' =>
      if (best_score <? float_value v)%float
      then argmax i (float_value v) l'
      else argmax best best_score l'
  end.

Definition best_indv (p : GAPopulation) (f : pyobj -> M World pyobj) : M World GAIndividual :=
  let* vs := scores p f in
  match combine (individuals p) vs with
  | [] => raise empty_sequence
  | (i, v) :: l => ret (argmax i (float_value v) l)
  end.

#[export] Instance runtime : Runtime World := {|
  float_pow := float_pow_iter;
  pop_max := reduce larger;
  pop_min := reduce smaller;
  pop_mean := mean;
  pop_best_indv := best_indv;
  split_size := fun n => ret n;
  merge_seq := fun l => ret l;
  is_master := true;
|}.

Definition first_two : GASelection World :=
  {| select := fun p _ => ret (take 2 (individuals p)) |}.

(** A deployment of two workers, seen from one of them: each gets half of
    the reproduction units, and the merge returns this worker's offspring
    followed by the other worker's, here the same individuals. *)
Definition two_workers : Runtime World := {|
  float_pow := float_pow_iter;
  pop_max := reduce larger;
  pop_min := reduce smaller;
  pop_mean := mean;
  pop_best_indv := best_indv;
  split_size := fun n => ret (n / 2);
  merge_seq := fun l => ret (l ++ l)%list;
  is_master := true;
|}.

(** [cross(father, mother)]: the two parents, swapped; any other number
    of arguments is a [TypeError]. *)
Definition swap : GACrossover World :=
  {| cross := fun parents =>
       match parents with
       | [father; mother] => ret [mother; father]
       | _ => raise (Exn TypeError "cross() takes 2 positional arguments" [])
       end |}.

Definition unchanged : GAMutation World :=
  {| mutate := fun child _ => ret child |}.

(** A mutation that raises from generation 3 on. *)
Definition failing_mutation : GAMutation World :=
  {| mutate := fun child st =>
       if 3 <=? current_generation st
       then raise (Exn (UserException 7) "mutation failed" [])
       else ret child |}.

(** A hook that observes and does nothing. *)
Definition quiet_hook (k : Z) (_ : unit) : OnTheFlyAnalysis World :=
  {| interval := k;
     setup := fun _ _ => ret tt;
     register_step := fun _ _ _ => ret tt;
     finalize := fun _ _ => ret tt |}.

(** A hook that leaves a mark in the world at every call: 10 for
    [setup], 100 for [register_step], 1000 for [finalize]. *)
Definition marking_hook (k : Z) (_ : unit) : OnTheFlyAnalysis World :=
  {| interval := k;
     setup := fun _ _ w => (Ok tt, (w + 10)%nat);
     register_step := fun _ _ _ w => (Ok tt, (w + 100)%nat);
     finalize := fun _ _ w => (Ok tt, (w + 1000)%nat) |}.

(** A hook whose [finalize] raises. *)
Definition bad_finalize_hook (_ : unit) : OnTheFlyAnalysis World :=
  {| interval := 1;
     setup := fun _ _ => ret tt;
     register_step := fun _ _ _ => ret tt;
     finalize := fun _ _ => raise (Exn (UserException 9) "finalize failed" []) |}.

Definition pop4 : GAPopulation := {| individuals := [1; 4; 2; 3]%nat; size := 4 |}.

Definition pop3 : GAPopulation := {| individuals := [1; 4; 2]%nat; size := 3 |}.

(** [GAEngine(pop4, first_two, swap, unchanged, analysis=[...])]. *)
Definition new_engine (hooks : list (unit -> OnTheFlyAnalysis World)) : GAEngine World :=
  GAEngine_init pop4 first_two swap unchanged None (Some hooks).

Definition boot (e : GAEngine World) : machine World :=
  {| engine := e; world := O; trace := [] |}.

(** The engine after [@engine.fitness_register def fitness(indv): ...]. *)
Definition ready (hooks : list (unit -> OnTheFlyAnalysis World)) : GAEngine World :=
  fitness_register raw_fitness (new_engine hooks).

(** The same engine with a mutation that fails, ready to run. *)
Definition fragile (hooks : list (unit -> OnTheFlyAnalysis World)) : GAEngine World :=
  fitness_register raw_fitness
    (GAEngine_init pop4 first_two swap failing_mutation None (Some hooks)).

(** A ready engine on the population of odd size. *)
Definition odd_engine : GAEngine World :=
  fitness_register raw_fitness
    (GAEngine_init pop3 first_two swap unchanged None None).

(** An engine state with the statistics [fmin = lo], [fmax = 4] at
    generation counter [g]. *)
Definition state_at (lo : float) (g : Z) : GAEngineState :=
  {| population := pop4; fmax := PyFloat 4; fmin := PyFloat lo; fmean := PyFloat 3;
     current_generation := g |}.

(** A selection that takes the last two individuals, last first. *)
Definition from_the_end : GASelection World :=
  {| select := fun p _ => ret (take 2 (rev (individuals p))) |}.

(** A ready engine whose offspring never contains the best individual. *)
Definition elitist : GAEngine World :=
  fitness_register raw_fitness
    (GAEngine_init pop4 from_the_end swap unchanged None None).

(** The call of a hook class: one more instance, one tick of the world. *)
Definition hook_class (k : Z) : M World (OnTheFlyAnalysis World) :=
  fun w => (Ok (quiet_hook k tt), S w).

(** The same class as an entry of the constructor's [analysis] list. *)
Definition hook_entry (k : Z) : M World (object World) :=
  fun w => (Ok (AnAnalysis (quiet_hook k tt)), S w).

(** A callable that returns something that is no hook. *)
Definition dict_entry : M World (object World) :=
  fun w => (Ok (Foreign "dict" None), S w).

(** A callable that returns a function named [report]. *)
Definition function_entry : M World (object World) :=
  fun w => (Ok (Foreign "function" (Some "report")), S w).

End Demo.

(** * Properties *)

Section Registration.
Context {W : Type} {RT : Runtime W}.

Implicit Types (fn : fitness_fn W) (self : GAEngine W) (st : GAEngineState).
Implicit Types (x v : pyobj) (w : W).

(** The monad's equations, for rewriting. *)
Lemma bind_ok {S A B} (m : M S A) (k : A -> M S B) s a s' :
  m s = (Ok a, s') -> bind m k s = k a s'.
Proof. intros H. unfold bind. now rewrite H. Qed.

Lemma is_invalid_false v :
  is_invalid v = false <-> exists f, v = PyFloat f /\ is_nan f = false.
Proof.
  split.
  - destruct v; simpl; try discriminate. intros H. eauto.
  - intros (f & -> & H). exact H.
Qed.

(** What the checked function does on an individual, once the raw function
    has returned. *)
Lemma fitness_check_on_individual fn st i w v w' :
  fn st (PyIndv i) w = (Ok v, w') ->
  _fn_with_fitness_check fn st (PyIndv i) w =
    if is_invalid v
    then (Raise (Exn ValueError "Fitness value(value: {}, type: {}) is invalid"
                     [v; PyStr (type_name v)]), w')
    else (Ok v, w').
Proof.
  intros Hfn. unfold _fn_with_fitness_check. simpl.
  rewrite (bind_ok _ _ _ _ _ Hfn). now destruct (is_invalid v).
Qed.

(** C10.  The function [fitness_register] stores raises [TypeError] on
    every argument that is no [GAIndividual], whatever the raw function
    is, and leaves the world as it was: the raw function has not run. *)
Theorem fitness_register_rejects_non_individual fn self x :
  isinstance_GAIndividual x = false ->
  exists checked,
    fitness (fitness_register fn self) = Some checked /\
    forall st w,
      checked st x w =
        (Raise (Exn TypeError "indv must be a GAIndividual object" []), w).
Proof.
  intros Hx. exists (_fn_with_fitness_check fn). split.
  - unfold fitness_register. simpl. now destruct (ori_fitness self).
  - intros st w. unfold _fn_with_fitness_check. now rewrite Hx.
Qed.

(** C8 (as the code has it).  On an individual for which the raw function
    returns [v], the registered function raises [ValueError] exactly when
    [v] is not of type [float] or is NaN, and otherwise returns [v]
    itself; every other float, infinite ones too, passes. *)
Theorem fitness_check_float_or_value_error fn self i st w v w' :
  fn st (PyIndv i) w = (Ok v, w') ->
  exists checked,
    fitness (fitness_register fn self) = Some checked /\
    ((exists msg args, checked st (PyIndv i) w = (Raise (Exn ValueError msg args), w'))
       <-> ~ (exists f, v = PyFloat f /\ is_nan f = false)) /\
    ((exists f, v = PyFloat f /\ is_nan f = false) ->
       checked st (PyIndv i) w = (Ok v, w')).
Proof.
  intros Hfn. exists (_fn_with_fitness_check fn). split; [| split].
  - unfold fitness_register. simpl. now destruct (ori_fitness self).
  - rewrite (fitness_check_on_individual _ _ _ _ _ _ Hfn).
    rewrite <- is_invalid_false.
    destruct (is_invalid v); split.
    + intros _ H. discriminate H.
    + intros _. eauto.
    + intros (msg & args & H) _. discriminate H.
    + intros H. now contradiction H.
  - intros Hv. apply is_invalid_false in Hv.
    rewrite (fitness_check_on_individual _ _ _ _ _ _ Hfn). now rewrite Hv.
Qed.

(** C4 (as the code has it).  [fitness_register] always replaces the
    active fitness by the checked function, and sets the original fitness
    only when there is none yet.  Either scaling decorator sets the
    original fitness to the raw function and leaves the active one alone:
    it is [fitness_register], applied to the scaled function the decorator
    returns, that installs it, and then keeps the raw function as the
    original. *)
Theorem registration_updates fn self :
  fitness (fitness_register fn self) = Some (_fn_with_fitness_check fn) /\
  ori_fitness (fitness_register fn self) =
    match ori_fitness self with
    | None => Some (_fn_with_fitness_check fn)
    | Some ori => Some ori
    end /\
  (forall target ksi,
     let scaled := fst (linear_scaling target ksi fn self) in
     let self' := snd (linear_scaling target ksi fn self) in
     ori_fitness self' = Some fn /\
     fitness self' = fitness self /\
     fitness (fitness_register scaled self') = Some (_fn_with_fitness_check scaled) /\
     ori_fitness (fitness_register scaled self') = Some fn) /\
  (forall target ksi0 r,
     let scaled := fst (dynamic_linear_scaling target ksi0 r fn self) in
     let self' := snd (dynamic_linear_scaling target ksi0 r fn self) in
     ori_fitness self' = Some fn /\
     fitness self' = fitness self /\
     fitness (fitness_register scaled self') = Some (_fn_with_fitness_check scaled) /\
     ori_fitness (fitness_register scaled self') = Some fn).
Proof.
  assert (Hactive : forall (g : fitness_fn W) (e : GAEngine W),
            fitness (fitness_register g e) = Some (_fn_with_fitness_check g)).
  { intros g e. unfold fitness_register. simpl. now destruct (ori_fitness e). }
  split; [apply Hactive |].
  split.
  { unfold fitness_register. simpl.
    destruct (ori_fitness self) eqn:Hori; simpl; congruence. }
  split; intros; cbv zeta; (split; [reflexivity |]);
    (split; [reflexivity |]); (split; [apply Hactive | reflexivity]).
Qed.

End Registration.

Section Scaling.
Context {W : Type} {RT : Runtime W}.

Implicit Types (fn : fitness_fn W) (self : GAEngine W) (st : GAEngineState).
Implicit Types (x f ksi r : pyobj) (w : W) (target : string).

Lemma bind_lift_result {S A B} (r : result A) (k : A -> M S B) (s : S) :
  bind (lift_result r) k s =
    match r with
    | Ok a => k a s
    | Raise e => (Raise e, s)
    end.
Proof. unfold bind, lift_result. now destruct r. Qed.

Lemma lift_result_rbind {S A B} (r : result A) (k : A -> result B) (s : S) :
  bind (lift_result r) (fun a => lift_result (k a)) s = (rbind r k, s).
Proof. rewrite bind_lift_result. now destruct r. Qed.

(** The scaled function once the raw function has returned [f]: one
    branch per target. *)
Lemma linear_scaling_unfold target ksi fn st x w f w' :
  fn st x w = (Ok f, w') ->
  _fn_with_linear_scaling target ksi fn st x w =
    if String.eqb target "max"
    then (rbind (py_sub f (fmin st)) (fun d => py_add d ksi), w')
    else if String.eqb target "min"
    then (rbind (py_sub (fmax st) f) (fun d => py_add d ksi), w')
    else (Raise (invalid_target target), w').
Proof.
  intros Hfn. unfold _fn_with_linear_scaling.
  rewrite (bind_ok _ _ _ _ _ Hfn).
  destruct (String.eqb target "max"); [apply lift_result_rbind |].
  destruct (String.eqb target "min"); [apply lift_result_rbind |].
  reflexivity.
Qed.

Lemma dynamic_linear_scaling_unfold target (ksi0 : pyobj) r fn st x w f w' :
  fn st x w = (Ok f, w') ->
  _fn_with_dynamic_linear_scaling target ksi0 r fn st x w =
    let term := adjustment ksi0 r (current_generation st + 1) in
    if String.eqb target "max"
    then (rbind (py_sub f (fmin st)) (fun d => rbind term (py_add d)), w')
    else if String.eqb target "min"
    then (rbind (py_sub (fmax st) f) (fun d => rbind term (py_add d)), w')
    else (Raise (invalid_target target), w').
Proof.
  intros Hfn. unfold _fn_with_dynamic_linear_scaling, adjustment.
  rewrite (bind_ok _ _ _ _ _ Hfn). cbv zeta.
  destruct (String.eqb target "max").
  { rewrite bind_lift_result. destruct (py_sub f (fmin st)); [| reflexivity].
    simpl. rewrite bind_lift_result.
    destruct (py_pow float_pow r _); [| reflexivity].
    simpl. apply lift_result_rbind. }
  destruct (String.eqb target "min").
  { rewrite bind_lift_result. destruct (py_sub (fmax st) f); [| reflexivity].
    simpl. rewrite bind_lift_result.
    destruct (py_pow float_pow r _); [| reflexivity].
    simpl. apply lift_result_rbind. }
  reflexivity.
Qed.

Lemma target_other target :
  target <> "max" -> target <> "min" ->
  String.eqb target "max" = false /\ String.eqb target "min" = false.
Proof. intros H1 H2. split; now apply String.eqb_neq. Qed.

(** C5.  Static linear scaling: once the raw function has returned [f],
    the scaled value is [f - fmin + ksi] for target "max" and
    [fmax - f + ksi] for target "min", in Python's arithmetic and with
    [fmin], [fmax] of the engine state at the call; on floats that is the
    IEEE difference and sum.  Any other target raises [ValueError].  With
    target "max", ksi 0.5, fmin 2.0 and raw value 5.0 the result is 3.5. *)
Theorem linear_scaling_value target ksi fn self st x w f w' :
  fn st x w = (Ok f, w') ->
  let scaled := fst (linear_scaling target ksi fn self) in
  (target = "max" ->
     scaled st x w = (rbind (py_sub f (fmin st)) (fun d => py_add d ksi), w')) /\
  (target = "min" ->
     scaled st x w = (rbind (py_sub (fmax st) f) (fun d => py_add d ksi), w')) /\
  (target <> "max" -> target <> "min" ->
     scaled st x w = (Raise (invalid_target target), w')) /\
  (forall a lo k : float,
     target = "max" -> f = PyFloat a -> fmin st = PyFloat lo -> ksi = PyFloat k ->
     scaled st x w = (Ok (PyFloat (a - lo + k)), w')) /\
  (forall a hi k : float,
     target = "min" -> f = PyFloat a -> fmax st = PyFloat hi -> ksi = PyFloat k ->
     scaled st x w = (Ok (PyFloat (hi - a + k)), w')) /\
  (target = "max" -> ksi = PyFloat 0.5 -> fmin st = PyFloat 2 -> f = PyFloat 5 ->
     scaled st x w = (Ok (PyFloat 3.5), w')).
Proof.
  intros Hfn scaled. subst scaled. simpl.
  pose proof (linear_scaling_unfold target ksi fn st x w f w' Hfn) as Hs.
  repeat split.
  - intros ->. exact Hs.
  - intros ->. exact Hs.
  - intros H1 H2. destruct (target_other _ H1 H2) as [E1 E2].
    now rewrite E1, E2 in Hs.
  - intros a lo k -> -> Hlo ->. rewrite Hs, Hlo. reflexivity.
  - intros a hi k -> -> Hhi ->. rewrite Hs, Hhi. reflexivity.
  - intros -> -> Hlo ->. rewrite Hs, Hlo. reflexivity.
Qed.

(** C6.  Dynamic linear scaling: the scaled value is that of static
    scaling with [ksi0 * r**k] in the place of [ksi], where
    [k = current_generation + 1]; on floats it is [f - fmin + ksi0 * p]
    (or [fmax - f + ksi0 * p]) with [p] the float power [r**k].  With
    target "max", ksi0 2, r 0.9, fmin 0 and raw value 10 the result is
    11.8 at generation counter 0 and [10 + 2 * 0.9**10] at counter 9. *)
Theorem dynamic_linear_scaling_value target (ksi0 : pyobj) r fn self st x w f w' :
  fn st x w = (Ok f, w') ->
  let scaled := fst (dynamic_linear_scaling target ksi0 r fn self) in
  let k := current_generation st + 1 in
  (forall ksi,
     adjustment ksi0 r k = Ok ksi ->
     scaled st x w = fst (linear_scaling target ksi fn self) st x w) /\
  (target <> "max" -> target <> "min" ->
     scaled st x w = (Raise (invalid_target target), w')) /\
  (forall a lo c b p : float,
     target = "max" -> f = PyFloat a -> fmin st = PyFloat lo ->
     ksi0 = PyFloat c -> r = PyFloat b -> float_pow b k = Ok p ->
     scaled st x w = (Ok (PyFloat (a - lo + c * p)), w')) /\
  (forall a hi c b p : float,
     target = "min" -> f = PyFloat a -> fmax st = PyFloat hi ->
     ksi0 = PyFloat c -> r = PyFloat b -> float_pow b k = Ok p ->
     scaled st x w = (Ok (PyFloat (hi - a + c * p)), w')) /\
  (target = "max" -> ksi0 = PyInt 2 -> r = PyFloat 0.9 ->
   fmin st = PyFloat 0 -> f = PyFloat 10 ->
     (current_generation st = 0 -> float_pow 0.9 1 = Ok 0.9%float ->
        scaled st x w = (Ok (PyFloat 11.8), w')) /\
     (forall p : float,
        current_generation st = 9 -> float_pow 0.9 10 = Ok p ->
        scaled st x w = (Ok (PyFloat (10 + 2 * p)), w'))).
Proof.
  intros Hfn scaled k. subst scaled k. simpl.
  pose proof (dynamic_linear_scaling_unfold target ksi0 r fn st x w f w' Hfn) as Hd.
  cbv zeta in Hd.
  split; [| split; [| split; [| split]]].
  - intros ksi Hk. rewrite Hd, Hk.
    rewrite (linear_scaling_unfold target ksi fn st x w f w' Hfn).
    reflexivity.
  - intros H1 H2. destruct (target_other _ H1 H2) as [E1 E2].
    now rewrite E1, E2 in Hd.
  - intros a lo c b p -> -> Hlo -> -> Hp. rewrite Hd, Hlo.
    unfold adjustment. simpl. rewrite Hp. reflexivity.
  - intros a hi c b p -> -> Hhi -> -> Hp. rewrite Hd, Hhi.
    unfold adjustment. simpl. rewrite Hp. reflexivity.
  - intros -> -> -> Hlo ->. rewrite Hlo in Hd. split.
    + intros Hg Hp. rewrite Hg in Hd. rewrite Hd.
      unfold adjustment. simpl. change (0 + 1) with 1.
      rewrite Hp. reflexivity.
    + intros p Hg Hp. rewrite Hg in Hd. rewrite Hd.
      unfold adjustment. simpl. change (9 + 1) with 10.
      rewrite Hp. reflexivity.
Qed.

End Scaling.

Local Close Scope string_scope.

Section Run.
Context {W : Type} {RT : Runtime W}.

Implicit Types (s : machine W) (P : machine W -> Prop) (ev : event).
Implicit Types (hooks : list (OnTheFlyAnalysis W)).

(** *** Invariants through the combinators *)

Lemma preserves_ret {A} P (a : A) : preserves P (ret a).
Proof. intros s r s' HP H. injection H as _ <-. exact HP. Qed.

Lemma preserves_raise {A} P e : preserves P (@raise _ A e).
Proof. intros s r s' HP H. injection H as _ <-. exact HP. Qed.

Lemma preserves_lift_result {A} P (x : result A) : preserves P (lift_result x).
Proof. intros s r s' HP H. injection H as _ <-. exact HP. Qed.

Lemma preserves_self P : preserves P self.
Proof. intros s r s' HP H. injection H as _ <-. exact HP. Qed.

Lemma preserves_bind {A B} P (m : M (machine W) A) (k : A -> M (machine W) B) :
  preserves P m -> (forall a, preserves P (k a)) -> preserves P (bind m k).
Proof.
  intros Hm Hk s r s' HP. unfold bind.
  destruct (m s) as [[a | e] s1] eqn:E; intros H.
  - exact (Hk a s1 r s' (Hm s _ s1 HP E) H).
  - injection H as _ <-. exact (Hm s _ s1 HP E).
Qed.

Lemma preserves_call {A} P (m : M W A) :
  (forall s w, P s -> P (with_world w s)) -> preserves P (call m).
Proof.
  intros HPw s r s' HP. unfold call.
  destruct (m (world s)) as [r1 w1]. intros H. injection H as _ <-. now apply HPw.
Qed.

Lemma preserves_assign P f :
  (forall s, P s -> P (with_state (f (state (engine s))) s)) -> preserves P (assign f).
Proof. intros HPf s r s' HP H. injection H as _ <-. now apply HPf. Qed.

Lemma preserves_record P ev :
  (forall s, P s -> P (with_event ev s)) -> preserves P (record ev).
Proof. intros HPe s r s' HP H. injection H as _ <-. now apply HPe. Qed.

Lemma preserves_for_each {X} P (l : list X) body :
  (forall x, preserves P (body x)) -> preserves P (for_each l body).
Proof.
  intros Hb. induction l as [| x l IH]; simpl.
  - apply preserves_ret.
  - apply preserves_bind; [apply Hb | intros _; exact IH].
Qed.

Lemma preserves_iterate {A} P n (body : A -> M (machine W) A) acc :
  (forall a, preserves P (body a)) -> preserves P (iterate n body acc).
Proof.
  intros Hb. revert acc. induction n as [| n IH]; intros acc; simpl.
  - apply preserves_ret.
  - apply preserves_bind; [apply Hb | exact IH].
Qed.

Lemma preserves_list_comprehension {A B} P (f : A -> M (machine W) B) l :
  (forall a, preserves P (f a)) -> preserves P (list_comprehension f l).
Proof.
  intros Hf. induction l as [| x l IH]; simpl.
  - apply preserves_ret.
  - apply preserves_bind; [apply Hf | intros y].
    apply preserves_bind; [exact IH | intros ys; apply preserves_ret].
Qed.

Lemma preserves_try_except {A} P (body : M (machine W) A) handler :
  preserves P body -> (forall e, preserves P (handler e)) ->
  preserves P (try_except body handler).
Proof.
  intros Hb Hh s r s' HP. unfold try_except.
  destruct (body s) as [[a | e] s1] eqn:E.
  - intros H. injection H as _ <-. exact (Hb s _ s1 HP E).
  - destruct (is_Exception e); intros H.
    + exact (Hh e s1 r s' (Hb s _ s1 HP E) H).
    + injection H as _ <-. exact (Hb s _ s1 HP E).
Qed.

Lemma preserves_try_finally {A} P (body : M (machine W) A) cleanup :
  preserves P body -> preserves P cleanup -> preserves P (try_finally body cleanup).
Proof.
  intros Hb Hc s r s' HP. unfold try_finally.
  destruct (body s) as [r1 s1] eqn:E.
  destruct (cleanup s1) as [[u | e] s2] eqn:E2; intros H;
    injection H as _ <-; exact (Hc s1 _ s2 (Hb s _ s1 HP E) E2).
Qed.


(** Invariants of the engine's own computations are found by following
    their structure. *)
Ltac preserve :=
  repeat first
    [ apply preserves_ret | apply preserves_raise | apply preserves_lift_result
    | apply preserves_self | apply preserves_call | apply preserves_assign
    | apply preserves_record | apply preserves_for_each | apply preserves_iterate
    | apply preserves_list_comprehension | apply preserves_try_except
    | apply preserves_try_finally | apply preserves_bind
    | match goal with
      | |- forall _, _ => intro
      | |- preserves _ (if ?b then _ else _) => destruct b
      | |- preserves _ (match ?x with Some _ => _ | None => _ end) => destruct x
      end ].

(** *** Recorded events through the combinators *)

Lemma emits_raise P F e : emits P F (raise e).
Proof.
  intros s r s' HP H. injection H as <- <-. split; [exact HP |].
  exists []. rewrite app_nil_r. repeat split; [apply prefix_nil | discriminate].
Qed.

Lemma emits_ret P : emits P [] (ret tt).
Proof.
  intros s r s' HP H. injection H as <- <-. split; [exact HP |].
  exists []. rewrite app_nil_r. repeat split. apply prefix_nil.
Qed.

Lemma emits_after {A} P F (m : M (machine W) A) k :
  (forall t, preserves (fun s => P s /\ trace s = t) m) ->
  (forall a, emits P F (k a)) ->
  emits P F (bind m k).
Proof.
  intros Hm Hk s r s' HP. unfold bind.
  destruct (m s) as [[a | e] s1] eqn:E; intros H.
  - destruct (Hm (trace s) s _ s1 (conj HP eq_refl) E) as [HP1 Ht1].
    rewrite <- Ht1. exact (Hk a s1 r s' HP1 H).
  - injection H as <- <-.
    destruct (Hm (trace s) s _ s1 (conj HP eq_refl) E) as [HP1 Ht1].
    split; [exact HP1 |]. exists []. rewrite app_nil_r.
    repeat split; [exact Ht1 | apply prefix_nil | discriminate].
Qed.

Lemma emits_record_then P ev (m : M (machine W) unit) :
  (forall s, P s -> P (with_event ev s)) ->
  (forall t, preserves (fun s => P s /\ trace s = t) m) ->
  emits P [ev] (record ev >> m).
Proof.
  intros HPe Hm s r s' HP H.
  change ((record ev >> m) s) with (m (with_event ev s)) in H.
  destruct (Hm (trace s ++ [ev]) (with_event ev s) r s') as [HP' Ht'];
    [split; [now apply HPe | reflexivity] | exact H |].
  split; [exact HP' |]. exists [ev].
  split; [exact Ht' | split; [reflexivity | reflexivity]].
Qed.

Lemma emits_for_each {X} P (f : X -> list event) body (l : list X) :
  (forall x, In x l -> emits P (f x) (body x)) ->
  emits P (flat_map f l) (for_each l body).
Proof.
  induction l as [| x l IH]; intros Hb; simpl.
  - apply emits_ret.
  - intros s r s' HP. unfold bind.
    destruct (body x s) as [[[] | e] s1] eqn:E; intros H.
    + destruct (Hb x (or_introl eq_refl) s _ s1 HP E) as (HP1 & evs1 & Ht1 & _ & Hall).
      destruct (IH (fun y Hy => Hb y (or_intror Hy)) s1 r s' HP1 H)
        as (HP2 & evs2 & Ht2 & Hpre & Hall2).
      split; [exact HP2 |]. exists (f x ++ evs2).
      rewrite Ht2, Ht1, (Hall eq_refl), app_assoc.
      repeat split.
      * now apply prefix_app.
      * intros Hr. now rewrite (Hall2 Hr).
    + injection H as <- <-.
      destruct (Hb x (or_introl eq_refl) s _ s1 HP E) as (HP1 & evs1 & Ht1 & Hpre & _).
      split; [exact HP1 |]. exists evs1.
      repeat split; [exact Ht1 | now apply prefix_app_r | discriminate].
Qed.


(** *** The hook loops *)

Lemma flat_map_enumerate_from {A} (g : nat -> event) (l : list A) start :
  flat_map (fun ia => [g (fst ia)]) (combine (seq start (length l)) l) =
  map g (seq start (length l)).
Proof.
  revert start. induction l as [| a l IH]; intros start; simpl.
  - reflexivity.
  - now rewrite IH.
Qed.

Lemma flat_map_enumerate {A} (g : nat -> event) (l : list A) :
  flat_map (fun ia => [g (fst ia)]) (enumerate l) = map g (seq 0 (length l)).
Proof. apply flat_map_enumerate_from. Qed.

Lemma hook_call_emits hooks ev (h : GAEngine W -> M W unit) :
  emits (registry hooks) [ev] (record ev >> let* e := self in call (h e)).
Proof.
  apply emits_record_then.
  - intros s H. exact H.
  - intros t. preserve; assumption.
Qed.

Lemma setup_hooks_emits hooks ng :
  emits (registry hooks) (expected_setup_calls hooks ng) (setup_hooks ng).
Proof.
  intros s r s' HP H. unfold setup_hooks in H.
  change (bind self ?k s) with (k (engine s) s) in H. cbv beta in H.
  unfold registry in HP. rewrite HP in H. revert H.
  unfold expected_setup_calls.
  rewrite <- (flat_map_enumerate (fun i => SetupCall i ng) hooks).
  apply emits_for_each; [| exact HP].
  intros ia _. apply hook_call_emits.
Qed.

Lemma finalize_hooks_emits hooks :
  emits (registry hooks) (expected_finalize_calls hooks) finalize_hooks.
Proof.
  intros s r s' HP H. unfold finalize_hooks in H.
  change (bind self ?k s) with (k (engine s) s) in H. cbv beta in H.
  unfold registry in HP. rewrite HP in H. revert H.
  unfold expected_finalize_calls.
  rewrite <- (flat_map_enumerate FinalizeCall hooks).
  apply emits_for_each; [| exact HP].
  intros ia _. apply hook_call_emits.
Qed.

Lemma dispatch_emits hooks g :
  emits (registry hooks) (expected_register_steps hooks g) (dispatch g).
Proof.
  intros s r s' HP H. unfold dispatch in H.
  change (bind self ?k s) with (k (engine s) s) in H. cbv beta in H.
  unfold registry in HP. rewrite HP in H. revert H.
  apply emits_for_each; [| exact HP].
  intros ia _.
  destruct (interval (snd ia) =? 0); [apply emits_raise |].
  destruct (g mod interval (snd ia) =? 0); [| apply emits_ret].
  apply hook_call_emits.
Qed.

(** Everything in a generation before the dispatch is silent. *)
Lemma update_statistics_silent hooks t :
  preserves (fun s => registry hooks s /\ trace s = t) update_statistics.
Proof. unfold update_statistics. preserve; assumption. Qed.

Lemma reproduce_silent hooks t acc :
  preserves (fun s => registry hooks s /\ trace s = t) (reproduce acc).
Proof. unfold reproduce. preserve; assumption. Qed.

Lemma generation_emits hooks g :
  emits (registry hooks) (expected_register_steps hooks g) (generation g).
Proof.
  unfold generation.
  apply emits_after; [intros t; preserve; assumption | intros _].
  apply emits_after; [intros t; preserve; assumption | intros e].
  apply emits_after; [intros t; preserve; assumption | intros best].
  apply emits_after; [intros t; preserve; assumption | intros n].
  apply emits_after;
    [intros t; apply preserves_iterate; intros acc; apply reproduce_silent | intros l].
  apply emits_after; [intros t; preserve; assumption | intros m].
  apply emits_after; [intros t; preserve; assumption | intros l'].
  apply emits_after; [intros t; preserve; assumption | intros _].
  apply emits_after; [intros t; apply update_statistics_silent | intros _].
  apply dispatch_emits.
Qed.

Lemma evolution_emits hooks ng :
  emits (registry hooks) (flat_map (expected_register_steps hooks) (range ng))
        (for_each (range ng) generation).
Proof. apply emits_for_each. intros g _. apply generation_emits. Qed.

(** *** Inversion of the combinators *)

Lemma bind_inv_ok {S A B} (m : M S A) (k : A -> M S B) (u : S) b (u' : S) :
  bind m k u = (Ok b, u') ->
  exists a v, m u = (Ok a, v) /\ k a v = (Ok b, u').
Proof.
  unfold bind. destruct (m u) as [[a | e] v]; [| discriminate].
  intros H. now exists a, v.
Qed.

Lemma call_inv_ok {A} (m : M W A) s a s1 :
  call m s = (Ok a, s1) ->
  exists w1, m (world s) = (Ok a, w1) /\ s1 = with_world w1 s.
Proof.
  unfold call. destruct (m (world s)) as [r w1]. intros H.
  injection H as -> <-. now exists w1.
Qed.

Lemma list_setitem_inv {A} (l l' : list A) i x :
  list_setitem l i x = Ok l' ->
  (i < length l)%nat /\ l' = <[i := x]> l.
Proof.
  unfold list_setitem. destruct (i <? length l)%nat eqn:E; [| discriminate].
  intros H. injection H as <-. split; [now apply Nat.ltb_lt | reflexivity].
Qed.

Lemma bind_inv {S A B} (m : M S A) (k : A -> M S B) (u : S) r (u' : S) :
  bind m k u = (r, u') ->
  (exists a v, m u = (Ok a, v) /\ k a v = (r, u')) \/
  (exists e, m u = (Raise e, u') /\ r = Raise e).
Proof.
  unfold bind. destruct (m u) as [[a | e] v]; intros H.
  - left. now exists a, v.
  - right. injection H as <- <-. now exists e.
Qed.

(** *** The shape of a run *)

Lemma run_split ng s : run ng s = (run_prelude ng >> run_loop ng) s.
Proof.
  unfold run, run_prelude, bind, self.
  destruct (fitness (engine s)); [| reflexivity].
  destruct (update_statistics s) as [[[] | e] s1]; reflexivity.
Qed.

Lemma try_except_reraise ng s r_body s_body :
  for_each (range ng) generation s = (r_body, s_body) ->
  try_except (for_each (range ng) generation) log_and_reraise s =
    (r_body, after_except r_body s_body).
Proof.
  intros Hbody. unfold try_except, log_and_reraise, after_except.
  rewrite Hbody. destruct r_body as [[] | e]; [reflexivity |].
  destruct (is_Exception e); [| reflexivity].
  destruct is_master; reflexivity.
Qed.

Lemma run_loop_inv ng s r s' :
  run_loop ng s = (r, s') ->
  exists r_body s_body r_fin,
    for_each (range ng) generation s = (r_body, s_body) /\
    finalize_hooks
      (with_state (set_current_generation (-1)
                     (state (engine (after_except r_body s_body))))
                  (after_except r_body s_body)) = (r_fin, s') /\
    r = match r_fin with Ok _ => r_body | Raise e => Raise e end.
Proof.
  destruct (for_each (range ng) generation s) as [r_body s_body] eqn:Hbody.
  unfold run_loop, try_finally.
  rewrite (try_except_reraise _ _ _ _ Hbody).
  unfold run_finally.
  change ((assign ?f >> finalize_hooks) ?s0)
    with (finalize_hooks (with_state (f (state (engine s0))) s0)).
  destruct (finalize_hooks _) as [[[] | e'] s2] eqn:Hfin;
    intros H; injection H as <- <-; exists r_body, s_body;
    eexists; (split; [reflexivity |]); (split; [exact Hfin | reflexivity]).
Qed.

(** *** What the expected calls are *)

Lemma In_enumerate_from {A} (l : list A) start i a :
  In (i, a) (combine (seq start (length l)) l) <->
  exists j, i = (start + j)%nat /\ l !! j = Some a.
Proof.
  revert start. induction l as [| b l IH]; intros start; simpl.
  - split; [intros [] | intros (j & _ & H); discriminate H].
  - rewrite IH. split.
    + intros [H | (j & -> & H)].
      * injection H as <- <-. exists O. split; [lia | reflexivity].
      * exists (S j). split; [lia | exact H].
    + intros ([| j] & -> & H).
      * left. injection H as <-. f_equal. lia.
      * right. exists j. split; [lia | exact H].
Qed.

Lemma In_enumerate {A} (l : list A) i a :
  In (i, a) (enumerate l) <-> l !! i = Some a.
Proof.
  unfold enumerate. rewrite In_enumerate_from. split.
  - intros (j & -> & H). exact H.
  - intros H. now exists i.
Qed.

Lemma In_range g ng : In g (range ng) <-> 0 <= g < ng.
Proof.
  unfold range. rewrite in_map_iff. split.
  - intros (n & <- & Hn). apply in_seq in Hn. lia.
  - intros Hg. exists (Z.to_nat g). split; [lia |]. apply in_seq. lia.
Qed.

Lemma In_expected_register_steps hooks g ev :
  In ev (expected_register_steps hooks g) <->
  exists i a, ev = RegisterStepCall i g /\ hooks !! i = Some a /\
              g mod interval a = 0.
Proof.
  unfold expected_register_steps. rewrite in_flat_map. split.
  - intros ([i a] & Hia & Hev). apply In_enumerate in Hia. simpl in Hev.
    destruct (g mod interval a =? 0) eqn:Hdue; [| destruct Hev].
    destruct Hev as [<- | []]. exists i, a. repeat split; [exact Hia | lia].
  - intros (i & a & -> & Hia & Hdue). exists (i, a).
    split; [now apply In_enumerate |]. simpl.
    apply Z.eqb_eq in Hdue. rewrite Hdue. now left.
Qed.


Lemma In_prefix {A} (l1 l2 : list A) x : l1 `prefix_of` l2 -> In x l1 -> In x l2.
Proof. intros [k ->] H. apply in_or_app. now left. Qed.


Lemma no_finalize_in_register_steps hooks ng evs j :
  evs `prefix_of` flat_map (expected_register_steps hooks) (range ng) ->
  ~ In (FinalizeCall j) evs.
Proof.
  intros Hpre Hin. apply (In_prefix _ _ _ Hpre) in Hin.
  apply in_flat_map in Hin. destruct Hin as (g & _ & Hin).
  apply In_expected_register_steps in Hin.
  destruct Hin as (i & a & Heq & _). discriminate Heq.
Qed.

Lemma In_expected_setup_calls hooks ng ev :
  In ev (expected_setup_calls hooks ng) -> exists i, ev = SetupCall i ng.
Proof.
  unfold expected_setup_calls. rewrite in_map_iff. intros (i & <- & _). now exists i.
Qed.

Lemma In_expected_finalize_calls hooks ev :
  In ev (expected_finalize_calls hooks) -> exists i, ev = FinalizeCall i.
Proof.
  unfold expected_finalize_calls. rewrite in_map_iff. intros (i & <- & _). now exists i.
Qed.

Lemma run_prelude_emits hooks ng :
  emits (registry hooks) (expected_setup_calls hooks ng) (run_prelude ng).
Proof.
  unfold run_prelude.
  apply emits_after; [intros t; preserve; assumption | intros e].
  destruct (fitness e); [| apply emits_raise].
  apply emits_after; [intros t; apply update_statistics_silent | intros _].
  apply setup_hooks_emits.
Qed.

Lemma after_except_trace r s :
  engine (after_except r s) = engine s /\
  exists logs, trace (after_except r s) = trace s ++ logs /\
               (r = Ok tt -> logs = []) /\
               (forall ev, In ev logs -> exists e, ev = LoggedException e).
Proof.
  unfold after_except. destruct r as [[] | e].
  - split; [reflexivity |]. exists []. rewrite app_nil_r.
    repeat split. intros ev [].
  - destruct (is_Exception e); [destruct is_master |].
    + split; [reflexivity |]. exists [LoggedException e].
      repeat split; [discriminate |]. intros ev [<- | []]. now exists e.
    + split; [reflexivity |]. exists []. rewrite app_nil_r.
      repeat split. intros ev [].
    + split; [reflexivity |]. exists []. rewrite app_nil_r.
      repeat split. intros ev [].
Qed.

(** The record of the [try] statement: register steps, at most one logged
    exception, finalize calls. *)
Lemma run_loop_shape hooks ng s r s' :
  registry hooks s ->
  run_loop ng s = (r, s') ->
  exists steps logs finals,
    trace s' = trace s ++ steps ++ logs ++ finals /\
    steps `prefix_of` flat_map (expected_register_steps hooks) (range ng) /\
    (forall ev, In ev logs -> exists e, ev = LoggedException e) /\
    finals `prefix_of` expected_finalize_calls hooks /\
    (r = Ok tt ->
       steps = flat_map (expected_register_steps hooks) (range ng) /\
       logs = [] /\ finals = expected_finalize_calls hooks).
Proof.
  intros HP H. apply run_loop_inv in H.
  destruct H as (r_body & s_body & r_fin & Hbody & Hfin & Hr).
  destruct (evolution_emits hooks ng s r_body s_body HP Hbody)
    as (HP1 & steps & Ht1 & Hpre1 & Hall1).
  destruct (after_except_trace r_body s_body) as (He & logs & Ht2 & Hnolog & Hlogs).
  apply finalize_hooks_emits with (hooks := hooks) in Hfin;
    [| unfold registry; simpl; rewrite He; exact HP1].
  destruct Hfin as (_ & finals & Ht3 & Hpre3 & Hall3).
  exists steps, logs, finals. simpl in Ht3.
  split; [rewrite Ht3, Ht2, Ht1; now rewrite <- !app_assoc |].
  split; [exact Hpre1 |]. split; [exact Hlogs |]. split; [exact Hpre3 |].
  intros ->. destruct r_fin as [[] | e]; [| discriminate Hr].
  subst r_body. auto.
Qed.

(** *** The hook calls on the world *)

Lemma in_turn_app (l1 l2 : list (M W unit)) w :
  in_turn (l1 ++ l2) w = (in_turn l1 >> in_turn l2) w.
Proof.
  unfold in_turn. revert w. induction l1 as [| c l1 IH]; intros w.
  - reflexivity.
  - simpl. unfold bind. destruct (c w) as [[[] | e] w1]; [| reflexivity].
    exact (IH w1).
Qed.

Lemma in_turn_one (c : M W unit) w : in_turn [c] w = c w.
Proof.
  unfold in_turn. simpl. unfold bind, ret.
  destruct (c w) as [[[] | e] w1]; reflexivity.
Qed.

Lemma flat_map_snd_enumerate {A B} (f : A -> list B) (l : list A) :
  flat_map (fun ia => f (snd ia)) (enumerate l) = flat_map f l.
Proof.
  unfold enumerate. generalize O.
  induction l as [| a l IH]; intros start; simpl; [reflexivity |].
  now rewrite IH.
Qed.

Lemma flat_map_singleton {A B} (f : A -> B) (l : list A) :
  flat_map (fun a => [f a]) l = map f l.
Proof. induction l as [| a l IH]; simpl; [reflexivity | now rewrite IH]. Qed.

(** A hook loop whose body acts on the world alone acts as the calls of
    its iterations, in turn. *)
Lemma hook_loop_on_world {X} (c : X -> list (M W unit))
    (body : X -> M (machine W) unit) (e0 : GAEngine W) :
  (forall x s r s', engine s = e0 -> body x s = (r, s') ->
     engine s' = e0 /\ in_turn (c x) (world s) = (r, world s')) ->
  forall (l : list X) s r s',
    engine s = e0 -> for_each l body s = (r, s') ->
    engine s' = e0 /\ in_turn (flat_map c l) (world s) = (r, world s').
Proof.
  intros Hbody. induction l as [| x l IH]; intros s r s' He H; simpl in H.
  - injection H as <- <-. split; [exact He | reflexivity].
  - simpl. rewrite in_turn_app. unfold bind.
    apply bind_inv in H as [([] & s1 & Hx & H) | (e & Hx & ->)].
    + destruct (Hbody x s _ s1 He Hx) as [He1 Hw1]. rewrite Hw1.
      exact (IH s1 r s' He1 H).
    + destruct (Hbody x s _ s' He Hx) as [He1 Hw1]. rewrite Hw1.
      split; [exact He1 | reflexivity].
Qed.

(** The call of one hook method: the event is recorded, the method runs on
    the world with the engine of that moment. *)
Lemma hook_call_on_world ev (h : GAEngineState -> M W unit) s r s' :
  (record ev >> let* e := self in call (h (state e))) s = (r, s') ->
  engine s' = engine s /\ in_turn [h (state (engine s))] (world s) = (r, world s').
Proof.
  change ((record ev >> ?m) s) with (m (with_event ev s)).
  change (bind self ?k ?s0) with (k (engine s0) s0). cbv beta.
  unfold call. rewrite in_turn_one. simpl.
  destruct (h (state (engine s)) (world s)) as [r1 w1].
  intros H. injection H as <- <-. split; reflexivity.
Qed.

Lemma setup_hooks_calls ng s r s' :
  setup_hooks ng s = (r, s') ->
  engine s' = engine s /\
  in_turn (setup_calls (analysis (engine s)) ng (state (engine s))) (world s)
    = (r, world s').
Proof.
  unfold setup_hooks.
  change (bind self ?k s) with (k (engine s) s). cbv beta. intros H.
  unfold setup_calls.
  rewrite <- flat_map_singleton,
    <- (flat_map_snd_enumerate (fun a => [setup a ng (state (engine s))])).
  refine (hook_loop_on_world
            (fun ia => [setup (snd ia) ng (state (engine s))]) _ (engine s) _
            _ s r s' eq_refl H).
  intros ia u ru u' He Hu.
  apply hook_call_on_world with (h := fun st => setup (snd ia) ng st) in Hu.
  rewrite He in Hu. exact Hu.
Qed.

Lemma finalize_hooks_calls s r s' :
  finalize_hooks s = (r, s') ->
  engine s' = engine s /\
  in_turn (finalize_calls (analysis (engine s)) (state (engine s))) (world s)
    = (r, world s').
Proof.
  unfold finalize_hooks.
  change (bind self ?k s) with (k (engine s) s). cbv beta. intros H.
  unfold finalize_calls.
  rewrite <- flat_map_singleton,
    <- (flat_map_snd_enumerate
          (fun a => [finalize a (population (state (engine s))) (state (engine s))])).
  refine (hook_loop_on_world
            (fun ia => [finalize (snd ia) (population (state (engine s)))
                                 (state (engine s))]) _ (engine s) _
            _ s r s' eq_refl H).
  intros ia u ru u' He Hu.
  apply hook_call_on_world
    with (h := fun st => finalize (snd ia) (population st) st) in Hu.
  rewrite He in Hu. exact Hu.
Qed.

Lemma dispatch_calls g s r s' :
  dispatch g s = (r, s') ->
  engine s' = engine s /\
  in_turn (register_step_calls (analysis (engine s)) g (state (engine s))) (world s)
    = (r, world s').
Proof.
  unfold dispatch.
  change (bind self ?k s) with (k (engine s) s). cbv beta. intros H.
  unfold register_step_calls.
  rewrite <- (flat_map_snd_enumerate
                (fun a =>
                   if interval a =? 0
                   then [raise (Exn ZeroDivisionError
                                    "integer division or modulo by zero"%string [])]
                   else if g mod interval a =? 0
                   then [register_step a g (population (state (engine s)))
                                       (state (engine s))]
                   else [])).
  refine (hook_loop_on_world _ _ (engine s) _ _ s r s' eq_refl H).
  intros ia u ru u' He Hu. cbv beta.
  destruct (interval (snd ia) =? 0).
  { injection Hu as <- <-. split; [exact He | reflexivity]. }
  destruct (g mod interval (snd ia) =? 0).
  - apply hook_call_on_world
      with (h := fun st => register_step (snd ia) g (population st) st) in Hu.
    rewrite He in Hu. exact Hu.
  - injection Hu as <- <-. split; [exact He | reflexivity].
Qed.









(** *** The cleanup *)

Lemma for_each_returns {X} P (body : X -> M (machine W) unit) (l : list X) :
  (forall x, In x l -> forall s, P s -> exists s', body x s = (Ok tt, s') /\ P s') ->
  forall s, P s -> exists s', for_each l body s = (Ok tt, s') /\ P s'.
Proof.
  induction l as [| x l IH]; intros Hb s HP; simpl.
  - now exists s.
  - destruct (Hb x (or_introl eq_refl) s HP) as (s1 & E & HP1).
    destruct (IH (fun y Hy => Hb y (or_intror Hy)) s1 HP1) as (s2 & E2 & HP2).
    exists s2. split; [| exact HP2]. unfold bind. now rewrite E.
Qed.

(** When no hook's [finalize] raises, the cleanup loop returns. *)
Lemma finalize_hooks_returns s :
  (forall a, In a (analysis (engine s)) ->
             forall p st w, fst (finalize a p st w) = Ok tt) ->
  exists s', finalize_hooks s = (Ok tt, s').
Proof.
  intros Hfin. unfold finalize_hooks.
  change (bind self ?k s) with (k (engine s) s). cbv beta.
  destruct (for_each_returns (fun s1 => engine s1 = engine s)
              (fun ia => record (FinalizeCall (fst ia)) >>
                         let* e := self in
                         call (finalize (snd ia) (population (state e)) (state e)))
              (enumerate (analysis (engine s)))) with (s := s)
    as (s' & E & _); [| reflexivity | now exists s'].
  intros [i a] Hia s1 He.
  apply in_combine_r in Hia. simpl.
  change ((record ?ev >> ?m) s1) with (m (with_event ev s1)).
  change (bind self ?k ?s0) with (k (engine s0) s0). cbv beta.
  unfold call.
  pose proof (Hfin a Hia (population (state (engine (with_event (FinalizeCall i) s1))))
                (state (engine (with_event (FinalizeCall i) s1)))
                (world (with_event (FinalizeCall i) s1))) as Hok.
  destruct (finalize a _ _ _) as [r1 w1]. simpl in Hok. subst r1.
  eexists. split; [reflexivity | exact He].
Qed.

(** C3 (as the code has it).  The cleanup belongs to the [try] statement.
    A run that reaches the loop ends, however the loop ended, with the
    generation counter at -1 and the engine otherwise as the loop left it,
    and with the calls [finalize(population, engine)] made in registration
    order on the world the loop left, each with the engine of that moment,
    counter at -1; the first that raises ends them.  The outcome of the
    run is the outcome of the loop, its exception unchanged, when every
    [finalize] returned, and the exception of the [finalize] that raised
    otherwise.  On the record these calls are the last events, none
    before them: those of all hooks, each once, when no [finalize]
    raises.  A run that ends before the loop ends as its first part ended,
    with no [finalize] call. *)
Theorem finalize_after_the_loop ng s :
  let hooks := analysis (engine s) in
  (forall s1,
     run_prelude ng s = (Ok tt, s1) ->
     exists r_body s_body r s' pre finals r_fin,
       for_each (range ng) generation s1 = (r_body, s_body) /\
       run ng s = (r, s') /\
       engine s' = engine (at_cleanup s_body) /\
       current_generation (state (engine s')) = -1 /\
       in_turn (finalize_calls hooks (state (engine (at_cleanup s_body)))) (world s_body)
         = (r_fin, world s') /\
       r = match r_fin with
           | Ok _ => r_body
           | Raise e => Raise e
           end /\
       trace s' = trace s ++ pre ++ finals /\
       (forall j, ~ In (FinalizeCall j) pre) /\
       finals `prefix_of` expected_finalize_calls hooks /\
       ((forall a, In a hooks -> forall p st w, fst (finalize a p st w) = Ok tt) ->
        finals = expected_finalize_calls hooks /\ r = r_body)) /\
  (forall e s1,
     run_prelude ng s = (Raise e, s1) ->
     run ng s = (Raise e, s1) /\
     exists evs, trace s1 = trace s ++ evs /\ forall j, ~ In (FinalizeCall j) evs).
Proof.
  intros hooks. split.
  - intros s1 Hpre.
    destruct (run_prelude_emits hooks ng s _ s1 eq_refl Hpre)
      as (HP1 & setups & Ht1 & _ & Hall1).
    specialize (Hall1 eq_refl). subst setups.
    destruct (run_loop ng s1) as [r s'] eqn:Hloop.
    pose proof (run_loop_inv _ _ _ _ Hloop)
      as (r_body & s_body & r_fin & Hbody & Hfin & Hr).
    destruct (evolution_emits hooks ng s1 r_body s_body HP1 Hbody)
      as (HP2 & steps & Ht2 & Hsteps & _).
    destruct (after_except_trace r_body s_body) as (He & logs & Ht3 & _ & Hlogs).
    assert (Hworld : world (after_except r_body s_body) = world s_body).
    { unfold after_except. destruct r_body as [[] | e]; [reflexivity |].
      destruct (is_Exception e), is_master; reflexivity. }
    set (s_log := after_except r_body s_body) in *.
    set (s_reset := with_state (set_current_generation (-1) (state (engine s_log))) s_log) in *.
    assert (HP3 : registry hooks s_reset).
    { unfold registry, s_reset. simpl. rewrite He. exact HP2. }
    assert (Hengine : engine s_reset = engine (at_cleanup s_body)).
    { unfold s_reset, at_cleanup. simpl. now rewrite He. }
    destruct (finalize_hooks_emits hooks s_reset r_fin s' HP3 Hfin)
      as (_ & finals & Ht4 & Hfinals & _).
    pose proof (finalize_hooks_calls _ _ _ Hfin) as [He' Hw'].
    exists r_body, s_body, r, s', (expected_setup_calls hooks ng ++ steps ++ logs), finals,
      r_fin.
    split; [exact Hbody |].
    split; [rewrite run_split; unfold bind; now rewrite Hpre |].
    split; [now rewrite He' |].
    split; [rewrite He', Hengine; reflexivity |].
    split.
    { rewrite Hengine in Hw'. change (world s_reset) with (world s_log) in Hw'.
      rewrite Hworld in Hw'. unfold registry in HP2.
      change (analysis (engine (at_cleanup s_body))) with (analysis (engine s_body)) in Hw'.
      rewrite HP2 in Hw'. exact Hw'. }
    split; [exact Hr |].
    split.
    { rewrite Ht4. change (trace s_reset) with (trace s_log).
      rewrite Ht3, Ht2, Ht1. now rewrite <- !app_assoc. }
    split.
    { intros j Hj. apply in_app_or in Hj. destruct Hj as [Hj | Hj].
      { apply In_expected_setup_calls in Hj. destruct Hj as [? Hj]. discriminate Hj. }
      apply in_app_or in Hj. destruct Hj as [Hj | Hj].
      { exact (no_finalize_in_register_steps _ _ _ _ Hsteps Hj). }
      apply Hlogs in Hj. destruct Hj as [? Hj]. discriminate Hj. }
    split; [exact Hfinals |].
    intros Hquiet.
    destruct (finalize_hooks_returns s_reset) as (s'' & Hok).
    { unfold s_reset. simpl. rewrite He. unfold registry in HP2. rewrite HP2.
      exact Hquiet. }
    rewrite Hok in Hfin. injection Hfin as <- <-.
    split; [| exact Hr].
    destruct (finalize_hooks_emits hooks s_reset _ s'' HP3 Hok)
      as (_ & finals' & Ht5 & _ & Hall5).
    specialize (Hall5 eq_refl). subst finals'.
    rewrite Ht4 in Ht5. now apply app_inv_head in Ht5.
  - intros e s1 Hpre.
    split; [rewrite run_split; unfold bind; now rewrite Hpre |].
    destruct (run_prelude_emits hooks ng s _ s1 eq_refl Hpre)
      as (_ & evs & Ht1 & Hpre1 & _).
    exists evs. split; [exact Ht1 |].
    intros j Hj. apply (In_prefix _ _ _ Hpre1) in Hj.
    apply In_expected_setup_calls in Hj. destruct Hj as [? Hj]. discriminate Hj.
Qed.

(** *** One generation *)

(** Up to the replacement of the population a generation only calls
    collaborators: the engine object stays as it is. *)
Lemma breeding_keeps_engine (e0 : GAEngine W) :
  (forall A (m : M W A), preserves (fun s => engine s = e0) (call m)) /\
  (forall n acc, preserves (fun s => engine s = e0) (iterate n reproduce acc)).
Proof.
  split; intros; unfold reproduce; preserve; assumption.
Qed.

(** A generation either raises before it has replaced the population, or
    goes through these steps, one after another: the capture of the best
    individual on the machine as the generation found it (with the counter
    already at [g]), the offspring and their merge, the replacement of the
    population by the merged offspring with the best individual at index
    0, and then the statistics and the hooks. *)
Lemma generation_cases g s r s' :
  generation g s = (r, s') ->
  let s0 := with_state (set_current_generation g (state (engine s))) s in
  (exists e, r = Raise e /\ engine s' = engine s0) \/
  (exists best w1 local_size s2 local_indvs s3 merged s4,
     pop_best_indv (population (state (engine s0)))
                   (callable (fitness (engine s0)) (state (engine s0)))
                   (world s0) = (Ok best, w1) /\
     call (split_size (size (population (state (engine s0))) / 2))
          (with_world w1 s0) = (Ok local_size, s2) /\
     iterate (Z.to_nat local_size) reproduce [] s2 = (Ok local_indvs, s3) /\
     call (merge_seq local_indvs) s3 = (Ok merged, s4) /\
     (0 < length merged)%nat /\
     (update_statistics >> dispatch g)
       (with_state (set_population
                      (set_individuals (<[0%nat := best]> merged)
                                       (population (state (engine s4))))
                      (state (engine s4))) s4) = (r, s')).
Proof.
  intros H s0. unfold generation in H.
  change ((assign ?f >> ?m) s) with (m (with_state (f (state (engine s))) s)) in H.
  fold s0 in H.
  change (bind self ?k s0) with (k (engine s0) s0) in H. cbv beta in H.
  destruct (breeding_keeps_engine (engine s0)) as [Hcall Hfill].
  apply bind_inv in H as [(best & s1 & Hbest & H) | (e & Hbest & ->)];
    [| left; exists e; split; [reflexivity | exact (Hcall _ _ s0 _ s' eq_refl Hbest)]].
  pose proof (Hcall _ _ s0 _ s1 eq_refl Hbest) as He1.
  apply call_inv_ok in Hbest as (w1 & Hbest & ->).
  apply bind_inv in H as [(local_size & s2 & Hsplit & H) | (e & Hsplit & ->)];
    [| left; exists e; split; [reflexivity | exact (Hcall _ _ _ _ s' He1 Hsplit)]].
  pose proof (Hcall _ _ _ _ s2 He1 Hsplit) as He2.
  apply bind_inv in H as [(local_indvs & s3 & Hbreed & H) | (e & Hbreed & ->)];
    [| left; exists e; split; [reflexivity | exact (Hfill _ _ s2 _ s' He2 Hbreed)]].
  pose proof (Hfill _ _ s2 _ s3 He2 Hbreed) as He3.
  apply bind_inv in H as [(merged & s4 & Hmerge & H) | (e & Hmerge & ->)];
    [| left; exists e; split; [reflexivity | exact (Hcall _ _ s3 _ s' He3 Hmerge)]].
  pose proof (Hcall _ _ s3 _ s4 He3 Hmerge) as He4.
  apply bind_inv in H as [(indvs & s5 & Hset & H) | (e & Hset & ->)].
  - unfold lift_result in Hset. injection Hset as Hset <-.
    apply list_setitem_inv in Hset as [Hlen ->].
    change ((assign ?f >> ?m) s4) with (m (with_state (f (state (engine s4))) s4)) in H.
    cbv beta in H.
    right. exists best, w1, local_size, s2, local_indvs, s3, merged, s4.
    repeat split; assumption.
  - unfold lift_result in Hset. injection Hset as _ <-.
    left. exists e. split; [reflexivity | exact He4].
Qed.

(** C1.  Elitism.  Whenever a generation replaces the population, the
    individual at index 0 of the new population is the one
    [population.best_indv] returned for the population the generation
    started from, under the active fitness with the counter at [g], asked
    before any selection, crossover or mutation of that generation; and it
    is still there when the generation ends, by return or by exception.
    A generation that returns has replaced the population; one that
    raises before the replacement leaves the population as it was. *)
Theorem elitism g s r s' :
  generation g s = (r, s') ->
  ((exists e, r = Raise e) /\
   population (state (engine s')) = population (state (engine s))) \/
  (exists best w1,
     pop_best_indv (population (state (engine s)))
                   (callable (fitness (engine s))
                             (set_current_generation g (state (engine s))))
                   (world s) = (Ok best, w1) /\
     individuals (population (state (engine s'))) !! 0%nat = Some best).
Proof.
  intros H. apply generation_cases in H. cbv zeta in H.
  destruct H as [(e & -> & He) |
                 (best & w1 & n & s2 & l & s3 & merged & s4
                  & Hbest & _ & _ & _ & Hlen & Hrest)].
  - left. split; [now exists e |]. now rewrite He.
  - right. exists best, w1. split; [exact Hbest |].
    assert (Hkeep : preserves
              (fun s1 => individuals (population (state (engine s1))) !! 0%nat = Some best)
              (update_statistics >> dispatch g)).
    { unfold update_statistics, dispatch. preserve; assumption. }
    refine (Hkeep _ _ _ _ Hrest). simpl.
    now apply list_lookup_insert_eq.
Qed.

(** *** The size of the population *)

Lemma list_comprehension_length {S A B} (f : A -> M S B) (l : list A) :
  forall (u : S) ys (u' : S),
    list_comprehension f l u = (Ok ys, u') -> length ys = length l.
Proof.
  induction l as [| x l IH]; intros u ys u' H; simpl in H.
  - injection H as <- _. reflexivity.
  - apply bind_inv_ok in H as (y & v & _ & H).
    apply bind_inv_ok in H as (ys' & v' & Hrec & H).
    injection H as <- _. simpl. f_equal. exact (IH _ _ _ Hrec).
Qed.

Lemma reproduce_length acc s l s' :
  binary_crossover (crossover (engine s)) ->
  reproduce acc s = (Ok l, s') ->
  length l = (length acc + 2)%nat /\ engine s' = engine s.
Proof.
  intros Hcross H. split.
  - unfold reproduce in H.
    change (bind self ?k s) with (k (engine s) s) in H. cbv beta in H.
    apply bind_inv_ok in H as (parents & s1 & _ & H).
    apply bind_inv_ok in H as (children & s2 & Hc & H).
    apply bind_inv_ok in H as (mutated & s3 & Hm & H).
    injection H as <- _.
    apply call_inv_ok in Hc as (w2 & Hc & _).
    apply Hcross in Hc. apply list_comprehension_length in Hm.
    rewrite length_app. lia.
  - assert (Hkeep : preserves (fun s1 => engine s1 = engine s) (reproduce acc)).
    { unfold reproduce. preserve; assumption. }
    exact (Hkeep s _ s' eq_refl H).
Qed.

Lemma iterate_reproduce_length n :
  forall acc s l s',
    binary_crossover (crossover (engine s)) ->
    iterate n reproduce acc s = (Ok l, s') ->
    length l = (length acc + 2 * n)%nat /\ engine s' = engine s.
Proof.
  induction n as [| n IH]; intros acc s l s' Hcross H; simpl in H.
  - injection H as <- <-. split; [lia | reflexivity].
  - apply bind_inv_ok in H as (acc' & s1 & Hone & H).
    apply (reproduce_length _ _ _ _ Hcross) in Hone as [Hlen He].
    rewrite <- He in Hcross.
    apply (IH _ _ _ _ Hcross) in H as [Hlen' He'].
    split; [lia | congruence].
Qed.

Lemma run_keeps_size n ng :
  preserves (fun s => size (population (state (engine s))) = n) (run ng).
Proof. unfold run. preserve; assumption. Qed.

Lemma generation_keeps_size n g :
  preserves (fun s => size (population (state (engine s))) = n) (generation g).
Proof. unfold generation. preserve; assumption. Qed.

(** Whatever its outcome, a generation leaves the population as it was
    or with [2 * (size // 2)] individuals. *)
Lemma generation_fills g s r s' :
  generation g s = (r, s') ->
  binary_crossover (crossover (engine s)) ->
  single_process ->
  ((exists e, r = Raise e) /\
   population (state (engine s')) = population (state (engine s))) \/
  Z.of_nat (length (individuals (population (state (engine s'))))) =
    2 * (size (population (state (engine s))) / 2).
Proof.
  intros H Hcross [Hsplit Hmerge].
  apply generation_cases in H. cbv zeta in H.
  destruct H as [(e & -> & He) |
                 (best & w1 & n & s2 & l & s3 & merged & s4
                  & _ & Hn & Hl & Hm & Hlen & Hrest)].
  { left. split; [now exists e | now rewrite He]. }
  right.
  apply call_inv_ok in Hn as (w2 & Hn & ->). apply Hsplit in Hn.
  apply iterate_reproduce_length in Hl as [Hl _]; [| exact Hcross].
  apply call_inv_ok in Hm as (w4 & Hm & _). apply Hmerge in Hm.
  assert (Hkeep : preserves
            (fun s1 => individuals (population (state (engine s1))) =
                       <[0%nat := best]> merged)
            (update_statistics >> dispatch g)).
  { unfold update_statistics, dispatch. preserve; assumption. }
  rewrite (Hkeep _ _ _ (eq_refl (<[0%nat := best]> merged)) Hrest), length_insert.
  simpl in Hn, Hl. rewrite <- Hn. lia.
Qed.

Lemma even_halves n : Z.even n = true -> 2 * (n / 2) = n.
Proof.
  intros Heven. apply Z.even_spec in Heven. destruct Heven as [k ->].
  rewrite (Z.mul_comm 2 k), Z.div_mul by lia. lia.
Qed.

(** The single-process coordinator is a coordinator of every even
    size. *)
Lemma single_process_coordinator n :
  single_process -> Z.even n = true -> 0 <= n -> coordinator n.
Proof.
  intros [Hsplit Hmerge] Heven Hn w k w1 l w2 merged w3 Hk Hl Hm.
  apply Hsplit in Hk. apply Hmerge in Hm. subst k.
  assert (Hhalf : 0 <= n / 2) by (apply Z.div_pos; lia).
  pose proof (even_halves n Heven) as Hn2. rewrite Hm, Hl. lia.
Qed.

(** Whatever its outcome, a generation leaves the population as it was
    or with as many individuals as the coordinator's merge returns:
    [size]. *)
Lemma generation_merges_full g s r s' :
  generation g s = (r, s') ->
  binary_crossover (crossover (engine s)) ->
  coordinator (size (population (state (engine s)))) ->
  ((exists e, r = Raise e) /\
   population (state (engine s')) = population (state (engine s))) \/
  Z.of_nat (length (individuals (population (state (engine s'))))) =
    size (population (state (engine s))).
Proof.
  intros H Hcross Hgroup.
  apply generation_cases in H. cbv zeta in H.
  destruct H as [(e & -> & He) |
                 (best & w1 & n & s2 & l & s3 & merged & s4
                  & _ & Hn & Hl & Hm & Hlen & Hrest)].
  { left. split; [now exists e | now rewrite He]. }
  right.
  apply call_inv_ok in Hn as (w2 & Hn & ->).
  apply iterate_reproduce_length in Hl as [Hl _]; [| exact Hcross].
  apply call_inv_ok in Hm as (w4 & Hm & _).
  assert (Hkeep : preserves
            (fun s1 => individuals (population (state (engine s1))) =
                       <[0%nat := best]> merged)
            (update_statistics >> dispatch g)).
  { unfold update_statistics, dispatch. preserve; assumption. }
  rewrite (Hkeep _ _ _ (eq_refl (<[0%nat := best]> merged)) Hrest), length_insert.
  exact (Hgroup _ _ _ _ _ _ _ Hn Hl Hm).
Qed.

Lemma generation_keeps_full n c g :
  binary_crossover c -> coordinator n ->
  preserves (full n c) (generation g).
Proof.
  intros Hcross Hgroup s r s' (Hn & Hc & Hlen) H.
  assert (Hkeep : preserves
            (fun s0 => size (population (state (engine s0))) = n /\
                       crossover (engine s0) = c)
            (generation g)).
  { unfold generation. preserve; assumption. }
  destruct (Hkeep s r s' (conj Hn Hc) H) as [Hn' Hc'].
  split; [exact Hn' |]. split; [exact Hc' |].
  rewrite <- Hc in Hcross. rewrite <- Hn in Hgroup.
  destruct (generation_merges_full g s r s' H Hcross Hgroup) as [[_ Hsame] | Hfull].
  - now rewrite Hsame.
  - now rewrite Hfull.
Qed.

Lemma run_keeps_full n c ng :
  binary_crossover c -> coordinator n ->
  preserves (full n c) (run ng).
Proof.
  intros Hcross Hgroup. unfold run.
  apply preserves_bind; [apply preserves_self | intros e].
  destruct (fitness e); [| apply preserves_raise].
  apply preserves_bind;
    [unfold update_statistics; preserve; assumption | intros _].
  apply preserves_bind; [unfold setup_hooks; preserve; assumption | intros _].
  unfold run_loop. apply preserves_try_finally.
  - apply preserves_try_except.
    + apply preserves_for_each. intros g. now apply generation_keeps_full.
    + intros e0. unfold log_and_reraise. preserve; assumption.
  - unfold run_finally, finalize_hooks. preserve; assumption.
Qed.

Lemma evolution_fills n c gs :
  forall s s',
    for_each gs generation s = (Ok tt, s') ->
    size (population (state (engine s))) = n ->
    crossover (engine s) = c ->
    binary_crossover c -> coordinator n ->
    (gs = [] /\ s' = s) \/
    Z.of_nat (length (individuals (population (state (engine s'))))) = n.
Proof.
  induction gs as [| g gs IH]; intros s s' H Hn Hc Hcross Hgroup; simpl in H.
  - injection H as <-. now left.
  - right. apply bind_inv_ok in H as ([] & s1 & Hg & H).
    assert (Hkeep : preserves
              (fun s0 => size (population (state (engine s0))) = n /\
                         crossover (engine s0) = c)
              (generation g)).
    { unfold generation. preserve; assumption. }
    destruct (Hkeep s _ s1 (conj Hn Hc) Hg) as [Hn1 Hc1].
    destruct (IH s1 s' H Hn1 Hc1 Hcross Hgroup) as [[_ ->] | Hfull].
    + rewrite <- Hc in Hcross. rewrite <- Hn in Hgroup. rewrite <- Hn.
      destruct (generation_merges_full g s _ s1 Hg Hcross Hgroup)
        as [[[e He] _] | Hfull]; [discriminate He | exact Hfull].
    + exact Hfull.
Qed.

(** C9.  The size of the population.  [run] never assigns
    [population.size]: after every generation, and after the run, it is
    what it was before, whatever the outcome.  And the number of
    individuals agrees with it, for a crossover that yields two children
    and a coordinator whose merge of the group's offspring has [size]
    individuals, whatever the number of workers and the share of this
    one: a generation leaves the population as it was (when it raises
    before the replacement) or with [size] individuals; a run started on
    [size] individuals ends on [size] individuals, by return or by
    exception; and a run of at least one generation that returns ends on
    [size] individuals.  The single-process coordinator is such a
    coordinator for every even size. *)
Theorem population_size_invariant s :
  let n := size (population (state (engine s))) in
  (forall ng r s', run ng s = (r, s') ->
     size (population (state (engine s'))) = n) /\
  (forall g r s', generation g s = (r, s') ->
     size (population (state (engine s'))) = n) /\
  (binary_crossover (crossover (engine s)) -> coordinator n ->
   (forall g r s', generation g s = (r, s') ->
      ((exists e, r = Raise e) /\
       population (state (engine s')) = population (state (engine s))) \/
      Z.of_nat (length (individuals (population (state (engine s'))))) = n) /\
   (forall ng r s',
      Z.of_nat (length (individuals (population (state (engine s))))) = n ->
      run ng s = (r, s') ->
      Z.of_nat (length (individuals (population (state (engine s'))))) = n) /\
   (forall ng s', 0 < ng -> run ng s = (Ok tt, s') ->
      Z.of_nat (length (individuals (population (state (engine s'))))) = n)) /\
  (single_process -> Z.even n = true -> 0 <= n -> coordinator n).
Proof.
  intros n. split; [| split; [| split]].
  - intros ng r s' H. exact (run_keeps_size n ng s r s' eq_refl H).
  - intros g r s' H. exact (generation_keeps_size n g s r s' eq_refl H).
  - intros Hcross Hgroup. split; [| split].
    + intros g r s' H. now apply (generation_merges_full g s r s').
    + intros ng r s' Hlen H.
      exact (proj2 (proj2 (run_keeps_full n _ ng Hcross Hgroup s r s'
                             (conj eq_refl (conj eq_refl Hlen)) H))).
    + intros ng s' Hng H. rewrite run_split in H.
      apply bind_inv_ok in H as ([] & s1 & Hpre & H).
      assert (Hkeep : preserves
                (fun s0 => size (population (state (engine s0))) = n /\
                           crossover (engine s0) = crossover (engine s))
                (run_prelude ng)).
      { unfold run_prelude, update_statistics, setup_hooks. preserve; assumption. }
      destruct (Hkeep s _ s1 (conj eq_refl eq_refl) Hpre) as [Hn1 Hc1].
      apply run_loop_inv in H as (r_body & s_body & r_fin & Hbody & Hfin & Hr).
      destruct r_fin as [[] | e]; [| discriminate Hr]. subst r_body.
      destruct (evolution_fills n _ _ _ _ Hbody Hn1 Hc1 Hcross Hgroup)
        as [[Hnil _] | Hfull].
      { exfalso. assert (Hin : In 0 (range ng)) by (apply In_range; lia).
        rewrite Hnil in Hin. destruct Hin. }
      assert (Hkeep2 : preserves
                (fun s0 => Z.of_nat (length (individuals (population (state (engine s0))))) = n)
                (@finalize_hooks W)).
      { unfold finalize_hooks. preserve; assumption. }
      refine (Hkeep2 _ _ _ _ Hfin). exact Hfull.
  - apply single_process_coordinator.
Qed.

(** The number of individuals without the evenness: a generation that
    returns leaves [2 * (size // 2)] of them, one less than [size] when
    [size] is odd. *)
Theorem offspring_count g s s' :
  generation g s = (Ok tt, s') ->
  binary_crossover (crossover (engine s)) ->
  single_process ->
  Z.of_nat (length (individuals (population (state (engine s'))))) =
    2 * (size (population (state (engine s))) / 2).
Proof.
  intros H Hcross Hsingle.
  destruct (generation_fills g s _ s' H Hcross Hsingle) as [[[e He] _] | Hfull];
    [discriminate He | exact Hfull].
Qed.

(** [run] tests [self.fitness] first: without one it raises at once and
    leaves the machine as it was; with one it goes on to the statistics,
    the hook setup and the loop. *)
Theorem run_needs_fitness ng s :
  match fitness (engine s) with
  | None => run ng s = (Raise no_fitness, s)
  | Some _ => run ng s = (update_statistics >> setup_hooks ng >> run_loop ng) s
  end.
Proof.
  unfold run. change (bind self ?k s) with (k (engine s) s). cbv beta.
  destruct (fitness (engine s)); reflexivity.
Qed.

(** C2 (what the code does).  [__init__] stores its [fitness] argument and
    then resets [self.fitness] to [None]: an engine built with an initial
    fitness function has none, and [run] raises the missing-fitness error
    on it at once, leaving the machine as it was. *)
Theorem constructor_fitness_is_dropped
    (pop : GAPopulation) (sel : GASelection W) (cro : GACrossover W)
    (mut : GAMutation W) (fn : fitness_fn W)
    (hooks : option (list (unit -> OnTheFlyAnalysis W))) :
  let self := GAEngine_init pop sel cro mut (Some fn) hooks in
  fitness self = None /\
  forall ng w t,
    run ng {| engine := self; world := w; trace := t |} =
      (Raise no_fitness, {| engine := self; world := w; trace := t |}).
Proof.
  intros self0. split; [reflexivity |]. intros ng w t. reflexivity.
Qed.


(** *** Further properties of [run] *)

(** [run] assigns [population.individuals], the three statistics and the
    generation counter, and nothing else: whatever its outcome, the
    registered fitness functions, the operators, the hook registry and
    [population.size] are what they were. *)
Theorem run_frame ng s :
  let s' := snd (run ng s) in
  fitness (engine s') = fitness (engine s) /\
  ori_fitness (engine s') = ori_fitness (engine s) /\
  selection (engine s') = selection (engine s) /\
  crossover (engine s') = crossover (engine s) /\
  mutation (engine s') = mutation (engine s) /\
  analysis (engine s') = analysis (engine s) /\
  size (population (state (engine s'))) = size (population (state (engine s))).
Proof.
  intros s'.
  assert (Hkeep : preserves
            (fun s0 => fitness (engine s0) = fitness (engine s) /\
                       ori_fitness (engine s0) = ori_fitness (engine s) /\
                       selection (engine s0) = selection (engine s) /\
                       crossover (engine s0) = crossover (engine s) /\
                       mutation (engine s0) = mutation (engine s) /\
                       analysis (engine s0) = analysis (engine s) /\
                       size (population (state (engine s0))) =
                         size (population (state (engine s))))
            (run ng)).
  { unfold run. preserve; assumption. }
  refine (Hkeep s (fst (run ng s)) s' _ _).
  - repeat split.
  - unfold s'. now destruct (run ng s).
Qed.

Lemma range_nonpositive ng : ng <= 0 -> range ng = [].
Proof.
  intros Hng. unfold range. replace (Z.to_nat ng) with O by lia. reflexivity.
Qed.

(** A run that returns has recorded exactly the expected calls. *)
Lemma run_returns_trace ng s s' :
  run ng s = (Ok tt, s') ->
  trace s' = trace s ++ expected_trace (analysis (engine s)) ng.
Proof.
  intros H. rewrite run_split in H.
  apply bind_inv_ok in H as ([] & s1 & Hpre & H).
  destruct (run_prelude_emits _ ng s _ s1 eq_refl Hpre) as (HP1 & setups & Ht1 & _ & Hall1).
  destruct (run_loop_shape _ ng s1 _ s' HP1 H)
    as (steps & logs & finals & Ht & _ & _ & _ & Hall).
  destruct (Hall eq_refl) as (-> & -> & ->).
  rewrite Ht, Ht1, (Hall1 eq_refl). unfold expected_trace.
  now rewrite <- !app_assoc.
Qed.

(** A run of no generation ([ng <= 0]) never enters the loop body: the
    population is left as it is, whatever the outcome.  Once the first
    statistics are there, all it does to the world is to call [setup(ng,
    engine)] of every hook and then, if none raised, [finalize(population,
    engine)] of every hook with the counter at -1, each in registration
    order; its outcome is the outcome of these calls.  When it returns,
    the record holds the [setup] and the [finalize] calls and no
    [register_step], and the generation counter is -1. *)
Theorem run_of_no_generation ng s r s' :
  ng <= 0 ->
  run ng s = (r, s') ->
  let hooks := analysis (engine s) in
  population (state (engine s')) = population (state (engine s)) /\
  (r = Ok tt ->
   current_generation (state (engine s')) = -1 /\
   trace s' = trace s ++ expected_setup_calls hooks ng ++ expected_finalize_calls hooks) /\
  (forall s0,
     fitness (engine s) <> None ->
     update_statistics s = (Ok tt, s0) ->
     (in_turn (setup_calls hooks ng (state (engine s0))) >>
      in_turn (finalize_calls hooks (set_current_generation (-1) (state (engine s0)))))
       (world s0) = (r, world s')).
Proof.
  intros Hng H hooks. pose proof (range_nonpositive ng Hng) as Hrange.
  split; [| split].
  - assert (Hkeep : preserves
              (fun s0 => population (state (engine s0)) = population (state (engine s)))
              (run ng)).
    { unfold run, run_loop. rewrite Hrange. cbn [for_each].
      unfold update_statistics, setup_hooks, log_and_reraise, run_finally, finalize_hooks.
      preserve; assumption. }
    exact (Hkeep s r s' eq_refl H).
  - intros ->. split.
    + rewrite run_split in H.
      apply bind_inv_ok in H as ([] & s1 & _ & H).
      apply run_loop_inv in H as (r_body & s_body & r_fin & _ & Hfin & _).
      assert (Hg : preserves (fun s0 => current_generation (state (engine s0)) = -1)
                             (@finalize_hooks W)).
      { unfold finalize_hooks. preserve; assumption. }
      refine (Hg _ _ _ _ Hfin). reflexivity.
    + rewrite (run_returns_trace ng s s' H). unfold expected_trace.
      rewrite Hrange. reflexivity.
  - intros s0 Hfit Hstat.
    destruct (update_statistics_silent hooks (trace s) s _ s0 (conj eq_refl eq_refl) Hstat)
      as [Hreg _]. unfold registry in Hreg.
    unfold run in H. change (bind self ?k s) with (k (engine s) s) in H. cbv beta in H.
    destruct (fitness (engine s)); [| now destruct Hfit].
    unfold bind in H. rewrite Hstat in H. unfold bind.
    destruct (setup_hooks ng s0) as [r1 s1] eqn:Hset.
    apply setup_hooks_calls in Hset as [He1 Hw1]. rewrite Hreg in Hw1. rewrite Hw1.
    destruct r1 as [[] | e]; [| injection H as <- <-; reflexivity].
    apply run_loop_inv in H as (r_body & s_body & r_fin & Hbody & Hfin & Hr).
    rewrite Hrange in Hbody. injection Hbody as <- <-. simpl in Hfin.
    apply finalize_hooks_calls in Hfin as [_ Hw2]. simpl in Hw2.
    rewrite He1, Hreg in Hw2. rewrite Hw2. subst r.
    destruct r_fin as [[] | e]; reflexivity.
Qed.

Lemma after_except_logged r s :
  trace (after_except r s) = trace s ++ logged r.
Proof.
  unfold after_except, logged. destruct r as [[] | e].
  - now rewrite app_nil_r.
  - destruct (is_Exception e), is_master; simpl; try reflexivity;
      now rewrite app_nil_r.
Qed.

(** Logging.  In a run that reaches the loop, an exception is logged
    exactly when it ends the loop, is an instance of [Exception] and the
    process is the master: once, after every [register_step] and before
    the first [finalize].  Nothing else is logged, and nothing at all in
    a run that ends before the loop. *)
Theorem exception_logging ng s :
  (forall s1 r_body s_body,
     run_prelude ng s = (Ok tt, s1) ->
     for_each (range ng) generation s1 = (r_body, s_body) ->
     exists pre finals,
       trace (snd (run ng s)) = trace s ++ pre ++ logged r_body ++ finals /\
       trace s_body = trace s ++ pre /\
       (forall e, ~ In (LoggedException e) pre) /\
       (forall e, ~ In (LoggedException e) finals)) /\
  (forall e s1,
     run_prelude ng s = (Raise e, s1) ->
     exists evs, trace (snd (run ng s)) = trace s ++ evs /\
                 forall e', ~ In (LoggedException e') evs).
Proof.
  split.
  - intros s1 r_body s_body Hpre Hbody.
    destruct (run_prelude_emits _ ng s _ s1 eq_refl Hpre)
      as (HP1 & setups & Ht1 & _ & Hall1).
    specialize (Hall1 eq_refl). subst setups.
    destruct (evolution_emits _ ng s1 r_body s_body HP1 Hbody)
      as (HP2 & steps & Ht2 & Hsteps & _).
    destruct (run_loop ng s1) as [r s'] eqn:Hloop.
    pose proof (run_loop_inv _ _ _ _ Hloop)
      as (r_body' & s_body' & r_fin & Hbody' & Hfin & _).
    rewrite Hbody in Hbody'. injection Hbody' as <- <-.
    destruct (after_except_trace r_body s_body) as (He & _).
    apply finalize_hooks_emits with (hooks := analysis (engine s)) in Hfin;
      [| unfold registry; simpl; rewrite He; exact HP2].
    destruct Hfin as (_ & finals & Ht4 & Hfinals & _). simpl in Ht4.
    exists (expected_setup_calls (analysis (engine s)) ng ++ steps), finals.
    split; [| split; [| split]].
    + rewrite run_split. unfold bind. rewrite Hpre, Hloop. simpl.
      rewrite Ht4, after_except_logged, Ht2, Ht1. now rewrite <- !app_assoc.
    + rewrite Ht2, Ht1. now rewrite <- app_assoc.
    + intros e Hin. apply in_app_or in Hin. destruct Hin as [Hin | Hin].
      * apply In_expected_setup_calls in Hin. destruct Hin as [? Hin]. discriminate Hin.
      * apply (In_prefix _ _ _ Hsteps) in Hin. apply in_flat_map in Hin.
        destruct Hin as (g & _ & Hin). apply In_expected_register_steps in Hin.
        destruct Hin as (i & a & Heq & _). discriminate Heq.
    + intros e Hin. apply (In_prefix _ _ _ Hfinals) in Hin.
      apply In_expected_finalize_calls in Hin. destruct Hin as [? Hin]. discriminate Hin.
  - intros e s1 Hpre.
    destruct (run_prelude_emits _ ng s _ s1 eq_refl Hpre) as (_ & evs & Ht1 & Hpre1 & _).
    exists evs. split.
    + rewrite run_split. unfold bind. now rewrite Hpre.
    + intros e' Hin. apply (In_prefix _ _ _ Hpre1) in Hin.
      apply In_expected_setup_calls in Hin. destruct Hin as [? Hin]. discriminate Hin.
Qed.

(** *** The statistics *)

Lemma update_statistics_inv s s' :
  update_statistics s = (Ok tt, s') ->
  let st := state (engine s) in
  let p := population st in
  let ori := callable (ori_fitness (engine s)) in
  exists vmax w1 vmin w2 vmean w3,
    pop_max p (ori st) (world s) = (Ok vmax, w1) /\
    pop_min p (ori (set_fmax vmax st)) w1 = (Ok vmin, w2) /\
    pop_mean p (ori (set_fmin vmin (set_fmax vmax st))) w2 = (Ok vmean, w3) /\
    engine s' = set_state (set_fmean vmean (set_fmin vmin (set_fmax vmax st))) (engine s).
Proof.
  intros H st p ori. unfold update_statistics in H.
  change (bind self ?k s) with (k (engine s) s) in H. cbv beta in H.
  apply bind_inv_ok in H as (vmax & s1 & Hmax & H).
  apply call_inv_ok in Hmax as (w1 & Hmax & ->).
  change ((assign ?f >> ?m) ?s0) with (m (with_state (f (state (engine s0))) s0)) in H.
  cbv beta in H.
  change (bind self ?k ?s0) with (k (engine s0) s0) in H. cbv beta in H.
  apply bind_inv_ok in H as (vmin & s2 & Hmin & H).
  apply call_inv_ok in Hmin as (w2 & Hmin & ->).
  change ((assign ?f >> ?m) ?s0) with (m (with_state (f (state (engine s0))) s0)) in H.
  cbv beta in H.
  change (bind self ?k ?s0) with (k (engine s0) s0) in H. cbv beta in H.
  apply bind_inv_ok in H as (vmean & s3 & Hmean & H).
  apply call_inv_ok in Hmean as (w3 & Hmean & ->).
  injection H as <-.
  exists vmax, w1, vmin, w2, vmean, w3. repeat split; assumption.
Qed.

(** The statistics follow the population.  After a generation that
    returns, [fmax], [fmin] and [fmean] are what [population.max], [min]
    and [mean] returned, in this order, for the population that
    generation produced and the original fitness, with the counter at
    [g]; the minimum is taken with the new [fmax] already in place, the
    mean with the new [fmax] and [fmin]. *)
Theorem statistics_follow_the_population g s s' :
  generation g s = (Ok tt, s') ->
  let st' := state (engine s') in
  let ori := callable (ori_fitness (engine s)) in
  exists st w0 w1 w2 w3,
    population st = population st' /\
    current_generation st = g /\
    pop_max (population st') (ori st) w0 = (Ok (fmax st'), w1) /\
    pop_min (population st') (ori (set_fmax (fmax st') st)) w1 = (Ok (fmin st'), w2) /\
    pop_mean (population st') (ori (set_fmin (fmin st') (set_fmax (fmax st') st))) w2
      = (Ok (fmean st'), w3).
Proof.
  intros H st' ori. apply generation_cases in H. cbv zeta in H.
  destruct H as [(e & He & _) |
                 (best & w1 & n & s2 & l & s3 & merged & s4
                  & _ & Hn & Hl & Hm & _ & Hrest)]; [discriminate He |].
  destruct (breeding_keeps_engine
              (engine (with_state (set_current_generation g (state (engine s))) s)))
    as [Hcall Hfill].
  assert (He2 : engine s2 =
                engine (with_state (set_current_generation g (state (engine s))) s))
    by (eapply Hcall; [| exact Hn]; reflexivity).
  pose proof (Hfill _ _ s2 _ s3 He2 Hl) as He3.
  pose proof (Hcall _ _ s3 _ s4 He3 Hm) as He4.
  apply bind_inv_ok in Hrest as ([] & s5 & Hstat & Hdisp).
  assert (Hkeep : preserves (fun s0 => engine s0 = engine s5) (dispatch g)).
  { unfold dispatch. preserve; assumption. }
  pose proof (Hkeep s5 _ s' eq_refl Hdisp) as He'.
  apply update_statistics_inv in Hstat. cbv zeta in Hstat.
  destruct Hstat as (vmax & u1 & vmin & u2 & vmean & u3 & Hmax & Hmin & Hmean & He5).
  cbv beta in He3, He4, He'.
  simpl in Hmax, Hmin, Hmean, He5.
  rewrite He4 in Hmax, Hmin, Hmean, He5. simpl in Hmax, Hmin, Hmean, He5.
  subst st'. rewrite He', He5. simpl.
  eexists _, _, _, _, _.
  split; [| split; [| split; [exact Hmax | split; [exact Hmin | exact Hmean]]]];
    reflexivity.
Qed.

(** The elite takes the place of the first offspring.  A generation that
    returns has asked [best_indv] of the population it started from, got
    this worker's share from [split_size], bred that many times from the
    empty list and merged the result; the population it leaves is the
    merged offspring with its first entry replaced by that best
    individual: the first offspring is dropped, the others keep their
    places. *)
Theorem elite_replaces_first_offspring g s s' :
  generation g s = (Ok tt, s') ->
  let s0 := with_state (set_current_generation g (state (engine s))) s in
  exists best w1 local_size s2 local_indvs s3 merged w4,
    pop_best_indv (population (state (engine s0)))
                  (callable (fitness (engine s0)) (state (engine s0)))
                  (world s0) = (Ok best, w1) /\
    call (split_size (size (population (state (engine s0))) / 2))
         (with_world w1 s0) = (Ok local_size, s2) /\
    iterate (Z.to_nat local_size) reproduce [] s2 = (Ok local_indvs, s3) /\
    merge_seq local_indvs (world s3) = (Ok merged, w4) /\
    merged <> [] /\
    individuals (population (state (engine s'))) = best :: tail merged /\
    forall j, individuals (population (state (engine s'))) !! S j = merged !! S j.
Proof.
  intros H s0. apply generation_cases in H. cbv zeta in H. fold s0 in H.
  destruct H as [(e & He & _) |
                 (best & w1 & n & s2 & l & s3 & merged & s4
                  & Hbest & Hn & Hl & Hm & Hlen & Hrest)]; [discriminate He |].
  apply call_inv_ok in Hm as (w4 & Hm & _).
  assert (Hkeep : preserves
            (fun s1 => individuals (population (state (engine s1))) =
                       <[0%nat := best]> merged)
            (update_statistics >> dispatch g)).
  { unfold update_statistics, dispatch. preserve; assumption. }
  pose proof (Hkeep _ _ _ (eq_refl (<[0%nat := best]> merged)) Hrest) as Hnew.
  exists best, w1, n, s2, l, s3, merged, w4.
  destruct merged as [| first rest]; [simpl in Hlen; lia |].
  split; [exact Hbest |]. split; [exact Hn |]. split; [exact Hl |].
  split; [exact Hm |]. split; [discriminate |].
  rewrite Hnew. split; reflexivity.
Qed.

(** *** Hooks registered later *)

Lemma expected_setup_calls_snoc hooks a ng :
  expected_setup_calls (hooks ++ [a]) ng =
  expected_setup_calls hooks ng ++ [SetupCall (length hooks) ng].
Proof.
  unfold expected_setup_calls. rewrite length_app. simpl.
  rewrite Nat.add_1_r, seq_S, map_app. reflexivity.
Qed.

Lemma expected_finalize_calls_snoc hooks a :
  expected_finalize_calls (hooks ++ [a]) =
  expected_finalize_calls hooks ++ [FinalizeCall (length hooks)].
Proof.
  unfold expected_finalize_calls. rewrite length_app. simpl.
  rewrite Nat.add_1_r, seq_S, map_app. reflexivity.
Qed.

Lemma enumerate_snoc_from {A} (l : list A) (a : A) start :
  combine (seq start (S (length l))) (l ++ [a]) =
  combine (seq start (length l)) l ++ [((start + length l)%nat, a)].
Proof.
  revert start. induction l as [| b l IH]; intros start.
  - simpl. now rewrite Nat.add_0_r.
  - change (combine (seq start (S (length (b :: l)))) ((b :: l) ++ [a]))
      with ((start, b) :: combine (seq (S start) (S (length l))) (l ++ [a])).
    rewrite IH. simpl. repeat f_equal. lia.
Qed.

Lemma enumerate_snoc {A} (l : list A) (a : A) :
  enumerate (l ++ [a]) = enumerate l ++ [(length l, a)].
Proof.
  unfold enumerate. rewrite length_app. simpl. rewrite Nat.add_1_r.
  exact (enumerate_snoc_from l a O).
Qed.

Lemma expected_register_steps_snoc hooks a g :
  expected_register_steps (hooks ++ [a]) g =
  expected_register_steps hooks g
    ++ (if g mod interval a =? 0 then [RegisterStepCall (length hooks) g] else []).
Proof.
  unfold expected_register_steps. rewrite enumerate_snoc, flat_map_app. simpl.
  now rewrite app_nil_r.
Qed.

(** A hook registered after the others is called after the others.
    [analysis_register] with a subclass of [OnTheFlyAnalysis] calls the
    class once and adds the instance at the end of the registry, changing
    nothing else.  From then on every hook loop of [run], the setup, the
    dispatch of a generation and the cleanup, makes on the world the
    calls it made before to the earlier hooks and then, if none raised,
    the call to the new hook (for the dispatch, when its interval divides
    the generation); and a run that returns has recorded the earlier
    hooks' calls as before and the new hook's calls last in their turn.
    With anything but such a subclass [analysis_register] raises
    [TypeError] without calling it. *)
Theorem late_hook_is_called_last (self : GAEngine W) (w : W) :
  (forall new a w',
     new w = (Ok a, w') ->
     exists self',
       analysis_register_checked (AnalysisSubclass new) self w = (Ok self', w') /\
       analysis self' = analysis self ++ [a] /\
       state self' = state self /\
       fitness self' = fitness self /\
       ori_fitness self' = ori_fitness self /\
       (forall u r u',
          analysis (engine u) = analysis self' ->
          let st := state (engine u) in
          (forall ng,
             setup_hooks ng u = (r, u') ->
             (in_turn (setup_calls (analysis self) ng st) >> setup a ng st) (world u)
               = (r, world u')) /\
          (forall g,
             interval a <> 0 ->
             dispatch g u = (r, u') ->
             (in_turn (register_step_calls (analysis self) g st) >>
              (if g mod interval a =? 0
               then register_step a g (population st) st
               else ret tt)) (world u)
               = (r, world u')) /\
          (finalize_hooks u = (r, u') ->
           (in_turn (finalize_calls (analysis self) st) >> finalize a (population st) st)
             (world u)
             = (r, world u'))) /\
       forall ng u t s',
         run ng {| engine := self'; world := u; trace := t |} = (Ok tt, s') ->
         trace s' =
           t ++ (expected_setup_calls (analysis self) ng
                 ++ [SetupCall (length (analysis self)) ng])
             ++ flat_map (fun g =>
                   expected_register_steps (analysis self) g
                   ++ (if g mod interval a =? 0
                       then [RegisterStepCall (length (analysis self)) g]
                       else []))
                 (range ng)
             ++ (expected_finalize_calls (analysis self)
                 ++ [FinalizeCall (length (analysis self))])) /\
  (forall name,
     analysis_register_checked (OtherClass name) self w =
       (Raise (Exn TypeError "analysis class must be subclass of OnTheFlyAnalysis"%string []),
        w)) /\
  (forall v,
     exists msg args,
       analysis_register_checked (NoClass v) self w = (Raise (Exn TypeError msg args), w)).
Proof.
  split; [| split].
  - intros new a w' Hnew.
    exists (set_analysis (analysis self ++ [a]) self).
    split; [unfold analysis_register_checked, bind; now rewrite Hnew |].
    repeat (split; [reflexivity |]).
    split.
    + intros u r u' Hreg st. simpl in Hreg. split; [| split].
      * intros ng H. apply setup_hooks_calls in H as [_ H].
        rewrite Hreg in H. unfold setup_calls in H. rewrite map_app, in_turn_app in H.
        fold st in H. unfold bind in *.
        destruct (in_turn _ (world u)) as [[[] | e] w1]; [| exact H].
        simpl in H. now rewrite in_turn_one in H.
      * intros g Hk H. apply dispatch_calls in H as [_ H].
        rewrite Hreg in H. unfold register_step_calls in H.
        rewrite flat_map_app, in_turn_app in H.
        fold st in H. unfold bind in *.
        destruct (in_turn _ (world u)) as [[[] | e] w1]; [| exact H].
        simpl in H. apply Z.eqb_neq in Hk. rewrite Hk in H.
        destruct (g mod interval a =? 0); [| exact H].
        simpl in H. now rewrite in_turn_one in H.
      * intros H. apply finalize_hooks_calls in H as [_ H].
        rewrite Hreg in H. unfold finalize_calls in H. rewrite map_app, in_turn_app in H.
        fold st in H. unfold bind in *.
        destruct (in_turn _ (world u)) as [[[] | e] w1]; [| exact H].
        simpl in H. now rewrite in_turn_one in H.
    + intros ng u t s' H. apply run_returns_trace in H. simpl in H.
      rewrite H. unfold expected_trace.
      rewrite expected_setup_calls_snoc, expected_finalize_calls_snoc.
      f_equal. f_equal. f_equal.
      induction (range ng) as [| g gs IH]; simpl; [reflexivity |].
      now rewrite IH, expected_register_steps_snoc.
  - intros name. reflexivity.
  - intros v. eexists _, _. reflexivity.
Qed.

End Run.

(** * Further properties of the engine *)

Section Further.
Context {W : Type} {RT : Runtime W}.

Implicit Types (fn : fitness_fn W) (self : GAEngine W) (st : GAEngineState).
Implicit Types (x v ksi : pyobj) (w : W) (target : string).

Lemma bind_raise_eq {S A B} (m : M S A) (k : A -> M S B) (u : S) e (u' : S) :
  m u = (Raise e, u') -> bind m k u = (Raise e, u').
Proof. intros H. unfold bind. now rewrite H. Qed.

(** The message of the fitness check, for the value that failed it. *)
Lemma fitness_check_cases fn st x w :
  _fn_with_fitness_check fn st x w =
    match x with
    | PyIndv _ =>
        match fn st x w with
        | (Ok v, w') =>
            if is_invalid v
            then (Raise (Exn ValueError "Fitness value(value: {}, type: {}) is invalid"%string
                             [v; PyStr (type_name v)]), w')
            else (Ok v, w')
        | (Raise e, w') => (Raise e, w')
        end
    | _ => (Raise (Exn TypeError "indv must be a GAIndividual object"%string []), w)
    end.
Proof.
  unfold _fn_with_fitness_check.
  destruct x; try reflexivity. simpl. unfold bind.
  destruct (fn st (PyIndv i) w) as [[v | e] w']; [| reflexivity].
  now destruct (is_invalid v).
Qed.

(** The function [fitness_register] installs returns nothing but floats
    that are no NaN: whenever it returns, its argument was an individual,
    and the value and the effect on the world are those of the wrapped
    function. *)
Theorem registered_fitness_returns_float fn self :
  exists checked,
    fitness (fitness_register fn self) = Some checked /\
    forall st x w v w',
      checked st x w = (Ok v, w') ->
      (exists i, x = PyIndv i) /\
      fn st x w = (Ok v, w') /\
      exists f, v = PyFloat f /\ is_nan f = false.
Proof.
  exists (_fn_with_fitness_check fn). split.
  - unfold fitness_register. simpl. now destruct (ori_fitness self).
  - intros st x w v w' H. rewrite fitness_check_cases in H.
    destruct x; try discriminate H.
    destruct (fn st (PyIndv i) w) as [[v0 | e] w0]; [| discriminate H].
    destruct (is_invalid v0) eqn:Hv; [discriminate H |].
    injection H as <- <-. split; [now exists i |]. split; [reflexivity |].
    now apply is_invalid_false.
Qed.

(** Checking twice is checking once: the check of a checked function
    behaves as the checked function, on every argument. *)
Theorem fitness_check_idempotent fn st x w :
  _fn_with_fitness_check (_fn_with_fitness_check fn) st x w =
  _fn_with_fitness_check fn st x w.
Proof.
  rewrite (fitness_check_cases (_fn_with_fitness_check fn)).
  destruct x; try (symmetry; apply fitness_check_cases).
  rewrite fitness_check_cases.
  destruct (fn st (PyIndv i) w) as [[v | e] w']; [| reflexivity].
  destruct (is_invalid v) eqn:Hv; [reflexivity | now rewrite Hv].
Qed.


(** The decorators stacked as [@engine.fitness_register] over
    [@engine.linear_scaling(target, ksi)].  The original fitness is the
    raw function itself, unchecked.  The active fitness checks the scaled
    value, not the raw one: with float statistics and a float [ksi], a raw
    float [a] gives [a - fmin + ksi] (or [fmax - a + ksi]) when that is no
    NaN and [ValueError] when it is, and a raw int is accepted, as the
    float it converts to. *)
Theorem registered_linear_scaling target ksi fn self :
  let scaled := fst (linear_scaling target ksi fn self) in
  let self' := fitness_register scaled (snd (linear_scaling target ksi fn self)) in
  ori_fitness self' = Some fn /\
  exists active,
    fitness self' = Some active /\
    forall st i w v w' (k : float),
      fn st (PyIndv i) w = (Ok v, w') ->
      ksi = PyFloat k ->
      (forall a lo : float,
         target = "max"%string -> fmin st = PyFloat lo ->
         (v = PyFloat a ->
          active st (PyIndv i) w = (checked_float (a - lo + k), w')) /\
         (forall z, v = PyInt z -> float_of_int z = Ok a ->
          active st (PyIndv i) w = (checked_float (a - lo + k), w'))) /\
      (forall a hi : float,
         target = "min"%string -> fmax st = PyFloat hi ->
         (v = PyFloat a ->
          active st (PyIndv i) w = (checked_float (hi - a + k), w')) /\
         (forall z, v = PyInt z -> float_of_int z = Ok a ->
          active st (PyIndv i) w = (checked_float (hi - a + k), w'))).
Proof.
  intros scaled self'. split; [reflexivity |].
  exists (_fn_with_fitness_check scaled). split.
  { unfold self', fitness_register. simpl. reflexivity. }
  intros st i w v w' k Hfn ->.
  pose proof (linear_scaling_unfold target (PyFloat k) fn st (PyIndv i) w v w' Hfn) as Hs.
  assert (Hfloat : forall b : float,
            scaled st (PyIndv i) w = (Ok (PyFloat b), w') ->
            _fn_with_fitness_check scaled st (PyIndv i) w = (checked_float b, w')).
  { intros b Hb. rewrite fitness_check_cases, Hb. unfold checked_float. simpl.
    now destruct (is_nan b). }
  split.
  - intros a lo -> Hlo. simpl in Hs. rewrite Hlo in Hs. split.
    + intros ->. apply Hfloat. exact Hs.
    + intros z -> Hz. apply Hfloat. unfold scaled. simpl fst.
      rewrite Hs. simpl. now rewrite Hz.
  - intros a hi -> Hhi. simpl in Hs. rewrite Hhi in Hs. split.
    + intros ->. apply Hfloat. exact Hs.
    + intros z -> Hz. apply Hfloat. unfold scaled. simpl fst.
      rewrite Hs. simpl. now rewrite Hz.
Qed.

(** A scaled fitness needs the statistics: while [fmin] (for target "max")
    or [fmax] (for target "min") is still [None], as before the first
    [run], the scaled function raises [TypeError] on every numeric raw
    value; the static and the dynamic variant alike. *)
Theorem scaling_needs_statistics target ksi (ksi0 r : pyobj) fn st x w v w' :
  fn st x w = (Ok v, w') ->
  (exists z, v = PyInt z) \/ (exists a, v = PyFloat a) ->
  (target = "max"%string /\ fmin st = PyNone) \/
  (target = "min"%string /\ fmax st = PyNone) ->
  exists msg args,
    _fn_with_linear_scaling target ksi fn st x w =
      (Raise (Exn TypeError msg args), w') /\
    _fn_with_dynamic_linear_scaling target ksi0 r fn st x w =
      (Raise (Exn TypeError msg args), w').
Proof.
  intros Hfn Hnum Hnone.
  rewrite (linear_scaling_unfold _ _ _ _ _ _ _ _ Hfn).
  rewrite (dynamic_linear_scaling_unfold _ _ _ _ _ _ _ _ _ Hfn). cbv zeta.
  destruct Hnone as [[-> Hlo] | [-> Hhi]]; simpl.
  - rewrite Hlo. destruct Hnum as [[z ->] | [a ->]]; simpl; eauto.
  - rewrite Hhi. destruct Hnum as [[z ->] | [a ->]]; simpl; eauto.
Qed.


(** *** Construction *)

Implicit Types (population selection crossover mutation : object W).
Implicit Types (instances : list (object W)).

Lemma check_analysis_instances (hooks : list (OnTheFlyAnalysis W)) :
  check_analysis (map AnAnalysis hooks) = Ok hooks.
Proof.
  induction hooks as [| a hooks IH]; simpl; [reflexivity |]. now rewrite IH.
Qed.

Lemma check_analysis_inv instances (hooks : list (OnTheFlyAnalysis W)) :
  check_analysis instances = Ok hooks -> instances = map AnAnalysis hooks.
Proof.
  revert hooks. induction instances as [| ap rest IH]; intros hooks H; simpl in H.
  - injection H as <-. reflexivity.
  - destruct ap; try (destruct (getattr_name _); discriminate H).
    destruct (check_analysis rest) as [hooks' | e]; [| discriminate H].
    injection H as <-. simpl. f_equal. now apply IH.
Qed.

Lemma check_analysis_first_mismatch (good : list (OnTheFlyAnalysis W)) bad rest :
  (forall a, bad <> AnAnalysis a) ->
  check_analysis (map AnAnalysis good ++ bad :: rest) =
    rbind (getattr_name bad) (fun name =>
      Raise (Exn TypeError "{} is not subclass of OnTheFlyAnalysis"%string [PyStr name])).
Proof.
  intros Hbad. induction good as [| a good IH]; simpl.
  - destruct bad; try reflexivity. now contradiction (Hbad a).
  - rewrite IH. now destruct (getattr_name bad).
Qed.

Lemma GAEngine_init_instances p sel cro mut (fit : option (fitness_fn W))
    (hooks : list (OnTheFlyAnalysis W)) :
  GAEngine_init p sel cro mut fit (Some (map (fun a _ => a) hooks)) =
  fresh_engine p sel cro mut hooks.
Proof.
  unfold GAEngine_init, fresh_engine, set_fitness, set_ori_fitness.
  cbn [state fitness ori_fitness selection crossover mutation analysis].
  f_equal. rewrite map_map. apply map_id.
Qed.

(** Construction succeeds exactly on well-typed arguments.  Once the
    entries of [analysis] have been called, the constructor returns an
    engine if and only if the four collaborators are instances of
    [GAPopulation], [GASelection], [GACrossover] and [GAMutation] and
    every object the calls returned is an [OnTheFlyAnalysis]; the engine
    then holds them, in the order given, with no statistics, the counter
    at -1 and no fitness function, also when one was passed. *)
Theorem constructor_accepts_well_typed population selection crossover mutation
    (fit : option (fitness_fn W)) analysis w instances w1 :
  instantiate analysis w = (Ok instances, w1) ->
  ((exists e w',
      GAEngine_new population selection crossover mutation fit analysis w = (Ok e, w'))
   <->
   (exists p sel cro mut hooks,
      population = APopulation p /\ selection = ASelection sel /\
      crossover = ACrossover cro /\ mutation = AMutation mut /\
      instances = map AnAnalysis hooks)) /\
  (forall p sel cro mut hooks,
     population = APopulation p -> selection = ASelection sel ->
     crossover = ACrossover cro -> mutation = AMutation mut ->
     instances = map AnAnalysis hooks ->
     GAEngine_new population selection crossover mutation fit analysis w =
       (Ok (fresh_engine p sel cro mut hooks), w1)).
Proof.
  intros Hinst.
  assert (Hgood : forall p sel cro mut hooks,
            population = APopulation p -> selection = ASelection sel ->
            crossover = ACrossover cro -> mutation = AMutation mut ->
            instances = map AnAnalysis hooks ->
            GAEngine_new population selection crossover mutation fit analysis w =
              (Ok (fresh_engine p sel cro mut hooks), w1)).
  { intros p sel cro mut hooks -> -> -> -> ->.
    unfold GAEngine_new.
    rewrite (bind_ok _ _ _ _ _ Hinst). simpl.
    rewrite check_analysis_instances.
    cbn [rbind lift_result bind]. unfold ret.
    now rewrite GAEngine_init_instances. }
  split; [| exact Hgood]. split.
  - intros (e & w' & H). unfold GAEngine_new in H.
    rewrite (bind_ok _ _ _ _ _ Hinst) in H.
    destruct population; try discriminate H.
    destruct selection; try discriminate H.
    destruct crossover; try discriminate H.
    destruct mutation; try discriminate H.
    simpl in H. destruct (check_analysis instances) as [hooks | e0] eqn:Hc;
      [| discriminate H].
    apply check_analysis_inv in Hc. now exists p, s, c, m, hooks.
  - intros (p & sel & cro & mut & hooks & H1 & H2 & H3 & H4 & H5).
    eexists _, _. exact (Hgood p sel cro mut hooks H1 H2 H3 H4 H5).
Qed.

(** What a failed construction reports.  The entries of [analysis] are
    called first, so their exception comes first.  Then the first
    collaborator of the wrong class, in the order population, selection,
    crossover, mutation, raises [TypeError] with its own message,
    whatever the later ones are.  A wrong analysis object raises
    [TypeError] only when it has a [__name__] for the message: an
    ordinary instance has none, and the constructor ends in
    [AttributeError]. *)
Theorem constructor_reports_first_mismatch population selection crossover mutation
    (fit : option (fitness_fn W)) analysis w :
  let result := GAEngine_new population selection crossover mutation fit analysis w in
  (forall e w', instantiate analysis w = (Raise e, w') -> result = (Raise e, w')) /\
  (forall instances w1,
     instantiate analysis w = (Ok instances, w1) ->
     ((forall p, population <> APopulation p) ->
      result = (Raise (Exn TypeError "population must be a GAPopulation object"%string []), w1)) /\
     (forall p, population = APopulation p ->
      ((forall sel, selection <> ASelection sel) ->
       result = (Raise (Exn TypeError
                          "selection operator must be a GASelection instance"%string []), w1)) /\
      (forall sel, selection = ASelection sel ->
       ((forall cro, crossover <> ACrossover cro) ->
        result = (Raise (Exn TypeError
                           "crossover operator must be a GACrossover instance"%string []), w1)) /\
       (forall cro, crossover = ACrossover cro ->
        ((forall mut, mutation <> AMutation mut) ->
         result = (Raise (Exn TypeError
                            "mutation operator must be a GAMutation instance"%string []), w1)) /\
        (forall mut good bad rest,
           mutation = AMutation mut ->
           instances = map AnAnalysis good ++ bad :: rest ->
           (forall a, bad <> AnAnalysis a) ->
           (forall cls name, bad = Foreign cls (Some name) ->
            result = (Raise (Exn TypeError "{} is not subclass of OnTheFlyAnalysis"%string
                                 [PyStr name]), w1)) /\
           ((forall cls name, bad <> Foreign cls (Some name)) ->
            result = (Raise (Exn AttributeError
                               "'{}' object has no attribute '__name__'"%string
                               [PyStr (class_of bad)]), w1))))))).
Proof.
  intros result. subst result. unfold GAEngine_new.
  split.
  - intros e w' H. now rewrite (bind_raise_eq _ _ _ _ _ H).
  - intros instances w1 Hinst. rewrite (bind_ok _ _ _ _ _ Hinst).
    split.
    { intros Hp. destruct population; try reflexivity. now contradiction (Hp p). }
    intros p ->. split.
    { intros Hs. destruct selection; try reflexivity. now contradiction (Hs s). }
    intros sel ->. split.
    { intros Hc. destruct crossover; try reflexivity. now contradiction (Hc c). }
    intros cro ->. split.
    { intros Hm. destruct mutation; try reflexivity. now contradiction (Hm m). }
    intros mut good bad rest -> -> Hbad. simpl.
    rewrite (check_analysis_first_mismatch good bad rest Hbad). split.
    + intros cls name ->. reflexivity.
    + intros Hname. destruct bad as [p0 | s0 | c0 | m0 | a | cls [name |]]; try reflexivity.
      now contradiction (Hname cls name).
Qed.

End Further.

(** * The properties on the concrete deployment *)

Module Checks.
Import Demo.

Lemma pairing {A B} (p : A * B) a : fst p = a -> p = (a, snd p).
Proof. destruct p. simpl. now intros ->. Qed.

(** C10 on [raw_fitness] and a float argument: [TypeError], and the call
    counter of the raw function does not move. *)
Lemma rejects_non_individual_witness :
  isinstance_GAIndividual (PyFloat 1) = false /\
  exists checked,
    fitness (fitness_register raw_fitness (new_engine [])) = Some checked /\
    forall st w,
      checked st (PyFloat 1) w =
        (Raise (Exn TypeError "indv must be a GAIndividual object"%string []), w).
Proof.
  split; [reflexivity |].
  apply fitness_register_rejects_non_individual. reflexivity.
Defined.

(** C8 on [raw_fitness] and individual 3. *)
Lemma fitness_check_witness :
  raw_fitness (state_at 2 0) (PyIndv 3) O = (Ok (PyFloat 3), 1%nat) /\
  exists checked,
    fitness (fitness_register raw_fitness (new_engine [])) = Some checked /\
    checked (state_at 2 0) (PyIndv 3) O = (Ok (PyFloat 3), 1%nat).
Proof.
  split; [reflexivity |].
  destruct (fitness_check_float_or_value_error raw_fitness (new_engine []) 3%nat
              (state_at 2 0) O (PyFloat 3) 1%nat eq_refl)
    as (checked & Hreg & _ & Hok).
  exists checked. split; [exact Hreg |].
  apply Hok. exists 3%float. split; reflexivity.
Defined.

(** C8 as stated fails: the int 3 is a finite real number and is refused,
    and the float infinity is not finite and is returned. *)
Lemma int_fitness_is_refused_and_infinity_passes :
  callable (fitness (fitness_register (const_fitness (PyInt 3)) (new_engine [])))
           (state_at 2 0) (PyIndv 1) O =
    (Raise (Exn ValueError "Fitness value(value: {}, type: {}) is invalid"%string
                [PyInt 3; PyStr "int"%string]), 1%nat) /\
  callable (fitness (fitness_register (const_fitness (PyFloat infinity)) (new_engine [])))
           (state_at 2 0) (PyIndv 1) O =
    (Ok (PyFloat infinity), 1%nat).
Proof. split; reflexivity. Qed.

(** C4 as stated fails: after a second plain registration the original
    fitness is still the first function; and a scaling decorator alone
    leaves the engine without an active fitness. *)
Lemma second_registration_keeps_first_basis :
  let f1 := const_fitness (PyFloat 1) in
  let f2 := const_fitness (PyFloat 2) in
  let self := fitness_register f2 (fitness_register f1 (new_engine [])) in
  callable (ori_fitness self) (state_at 2 0) (PyIndv 1) O = (Ok (PyFloat 1), 1%nat) /\
  f2 (state_at 2 0) (PyIndv 1) O = (Ok (PyFloat 2), 1%nat) /\
  fitness (snd (linear_scaling "max"%string (PyFloat 0.5) f2 (new_engine []))) = None /\
  fitness (snd (dynamic_linear_scaling "max"%string (PyInt 2) (PyFloat 0.9) f2 (new_engine []))) = None.
Proof. repeat split. Qed.

(** C5: target "max", ksi 0.5, fmin 2.0, raw value 5.0. *)
Lemma linear_scaling_witness :
  fst (linear_scaling "max"%string (PyFloat 0.5) (const_fitness (PyFloat 5)) (new_engine []))
      (state_at 2 0) (PyIndv 1) O = (Ok (PyFloat 3.5), 1%nat).
Proof.
  pose proof (linear_scaling_value "max"%string (PyFloat 0.5) (const_fitness (PyFloat 5))
                (new_engine []) (state_at 2 0) (PyIndv 1) O (PyFloat 5) 1%nat eq_refl)
    as H.
  cbv zeta in H. destruct H as (_ & _ & _ & _ & _ & H).
  apply H; reflexivity.
Defined.

(** C6: target "max", ksi0 2, r 0.9, fmin 0, raw value 10, at generation
    counters 0 and 9. *)
Lemma dynamic_linear_scaling_witness :
  let scaled := fst (dynamic_linear_scaling "max"%string (PyInt 2) (PyFloat 0.9)
                       (const_fitness (PyFloat 10)) (new_engine [])) in
  scaled (state_at 0 0) (PyIndv 1) O = (Ok (PyFloat 11.8), 1%nat) /\
  scaled (state_at 0 9) (PyIndv 1) O =
    (Ok (PyFloat (10 + 2 * pow_iter 0.9 10)), 1%nat).
Proof.
  split.
  - pose proof (dynamic_linear_scaling_value "max"%string (PyInt 2) (PyFloat 0.9)
                  (const_fitness (PyFloat 10)) (new_engine []) (state_at 0 0)
                  (PyIndv 1) O (PyFloat 10) 1%nat eq_refl) as H.
    cbv zeta in H. destruct H as (_ & _ & _ & _ & H).
    specialize (H eq_refl eq_refl eq_refl eq_refl eq_refl).
    destruct H as [H _]. exact (H eq_refl eq_refl).
  - pose proof (dynamic_linear_scaling_value "max"%string (PyInt 2) (PyFloat 0.9)
                  (const_fitness (PyFloat 10)) (new_engine []) (state_at 0 9)
                  (PyIndv 1) O (PyFloat 10) 1%nat eq_refl) as H.
    cbv zeta in H. destruct H as (_ & _ & _ & _ & H).
    specialize (H eq_refl eq_refl eq_refl eq_refl eq_refl).
    destruct H as [_ H]. exact (H _ eq_refl eq_refl).
Defined.


(** C1: the first generation of the ready engine on [1; 4; 2; 3]: the best
    individual is 4, and it stands at index 0 afterwards. *)
Lemma elitism_witness :
  fst (generation 0 (boot (ready []))) = Ok tt /\
  individuals (population (state (engine (snd (generation 0 (boot (ready []))))))) !! 0%nat
    = Some 4%nat.
Proof.
  assert (Hrun : fst (generation 0 (boot (ready []))) = Ok tt) by (vm_compute; reflexivity).
  split; [exact Hrun |].
  destruct (elitism 0 (boot (ready [])) _ _ (pairing _ _ Hrun))
    as [[[e He] _] | (best & w1 & Hbest & Hat)]; [discriminate He |].
  refine (eq_trans Hat _). f_equal.
  assert (Hfour : fst (pop_best_indv (population (state (engine (boot (ready [])))))
                         (callable (fitness (engine (boot (ready []))))
                            (set_current_generation 0 (state (engine (boot (ready []))))))
                         (world (boot (ready [])))) = Ok 4%nat)
    by (vm_compute; reflexivity).
  rewrite Hbest in Hfour. simpl in Hfour. now injection Hfour.
Defined.


(** C3: a mutation that raises in generation 3 of a run of 10: the same
    exception leaves [run], the counter is back at -1, and both hooks are
    finalized once, last; with hooks that mark the world, both marks are
    there.  And a [finalize] that raises: its exception leaves [run], and
    the hook after it leaves no mark. *)
Lemma finalize_after_failure_witness :
  let s := boot (fragile [quiet_hook 1; quiet_hook 2]) in
  let t := boot (fragile [marking_hook 1; marking_hook 2]) in
  let b := boot (ready [bad_finalize_hook; marking_hook 1]) in
  fst (run 10 s) = Raise (Exn (UserException 7) "mutation failed"%string []) /\
  current_generation (state (engine (snd (run 10 s)))) = -1 /\
  (exists pre,
     trace (snd (run 10 s)) = pre ++ [FinalizeCall 0; FinalizeCall 1] /\
     forall j, ~ In (FinalizeCall j) pre) /\
  world (snd (run 10 t)) =
    (world (snd (for_each (range 10) generation (snd (run_prelude 10 t)))) + 2000)%nat /\
  fst (run 1 b) = Raise (Exn (UserException 9) "finalize failed"%string []) /\
  world (snd (run 1 b)) =
    world (snd (for_each (range 1) generation (snd (run_prelude 1 b)))).
Proof.
  intros s t b.
  assert (Hpre : fst (run_prelude 10 s) = Ok tt) by (vm_compute; reflexivity).
  destruct (finalize_after_the_loop 10 s) as [Hloop _].
  destruct (Hloop _ (pairing _ _ Hpre))
    as (r_body & s_body & r & s' & pre & finals & r_fin
        & Hbody & Hrun & _ & Hgen & _ & _ & Ht & Hnone & _ & Hall).
  destruct Hall as [-> ->].
  { intros a [<- | [<- | []]]; reflexivity. }
  rewrite Hrun. cbn [fst snd]. split; [| split; [| split; [| split; [| split]]]].
  - assert (Hfail : fst (for_each (range 10) generation (snd (run_prelude 10 s))) =
                    Raise (Exn (UserException 7) "mutation failed"%string []))
      by (vm_compute; reflexivity).
    rewrite Hbody in Hfail. exact Hfail.
  - exact Hgen.
  - exists pre. split; [exact Ht | exact Hnone].
  - clear Hloop Hbody Hrun.
    assert (Hpre_t : fst (run_prelude 10 t) = Ok tt) by (vm_compute; reflexivity).
    assert (E : forall st w,
              in_turn (finalize_calls (analysis (engine t)) st) w
              = (Ok tt, (w + 1000 + 1000)%nat)) by reflexivity.
    destruct (finalize_after_the_loop 10 t) as [Hloop _].
    destruct (Hloop _ (pairing _ _ Hpre_t))
      as (r_body' & s_body' & r' & s'' & _ & _ & r_fin'
          & Hbody & Hrun & _ & _ & Hw & _).
    rewrite E in Hw. injection Hw as _ Hw.
    rewrite Hrun, Hbody. cbn [snd]. rewrite <- Hw, <- Nat.add_assoc. reflexivity.
  - clear Hloop Hbody Hrun.
    assert (Hpre_b : fst (run_prelude 1 b) = Ok tt) by (vm_compute; reflexivity).
    assert (E : forall st w,
              in_turn (finalize_calls (analysis (engine b)) st) w
              = (Raise (Exn (UserException 9) "finalize failed"%string []), w))
      by reflexivity.
    destruct (finalize_after_the_loop 1 b) as [Hloop _].
    destruct (Hloop _ (pairing _ _ Hpre_b))
      as (r_body' & s_body' & r' & s'' & _ & _ & r_fin'
          & Hbody & Hrun & _ & _ & Hw & Hr & _).
    rewrite E in Hw. injection Hw as <- _.
    rewrite Hrun. exact Hr.
  - clear Hloop Hbody Hrun.
    assert (Hpre_b : fst (run_prelude 1 b) = Ok tt) by (vm_compute; reflexivity).
    assert (E : forall st w,
              in_turn (finalize_calls (analysis (engine b)) st) w
              = (Raise (Exn (UserException 9) "finalize failed"%string []), w))
      by reflexivity.
    destruct (finalize_after_the_loop 1 b) as [Hloop _].
    destruct (Hloop _ (pairing _ _ Hpre_b))
      as (r_body' & s_body' & r' & s'' & _ & _ & r_fin'
          & Hbody & Hrun & _ & _ & Hw & _).
    rewrite E in Hw. injection Hw as _ Hw.
    rewrite Hrun, Hbody. cbn [snd]. symmetry. exact Hw.
Defined.

(** C3 as stated fails.  Without a fitness function [run] raises before
    the [try] statement, and the registered hook is never finalized; and
    when the first hook's [finalize] raises, the second hook's is never
    called, and that exception is what leaves [run]. *)
Lemma finalize_is_skipped :
  analysis (new_engine [quiet_hook 1]) = [quiet_hook 1 tt] /\
  run 3 (boot (new_engine [quiet_hook 1])) =
    (Raise no_fitness, boot (new_engine [quiet_hook 1])) /\
  trace (boot (new_engine [quiet_hook 1])) = [] /\
  fst (run 1 (boot (ready [bad_finalize_hook; quiet_hook 1]))) =
    Raise (Exn (UserException 9) "finalize failed"%string []) /\
  trace (snd (run 1 (boot (ready [bad_finalize_hook; quiet_hook 1])))) =
    [SetupCall 0 1; SetupCall 1 1;
     RegisterStepCall 0 0; RegisterStepCall 1 0;
     FinalizeCall 0].
Proof. repeat split; vm_compute; reflexivity. Qed.

Lemma demo_binary_crossover : binary_crossover swap.
Proof.
  intros parents w children w'. simpl.
  destruct parents as [| a [| b [| c l]]]; try discriminate.
  intros H. injection H as <- _. reflexivity.
Qed.

Lemma demo_single_process : single_process.
Proof.
  split.
  - intros n w k w' H. injection H as <- _. reflexivity.
  - intros l w merged w' H. injection H as <- _. reflexivity.
Qed.

Lemma demo_two_workers : @coordinator World two_workers 4.
Proof.
  intros w k w1 l w2 merged w3 Hk Hl Hm.
  injection Hk as <- _. injection Hm as <- _.
  rewrite length_app, Hl. reflexivity.
Qed.

(** C9: three generations of the ready engine of size 4, in the
    single-process deployment and as one of two workers. *)
Lemma population_size_witness :
  fst (run 3 (boot (ready [quiet_hook 1]))) = Ok tt /\
  size (population (state (engine (snd (run 3 (boot (ready [quiet_hook 1]))))))) = 4 /\
  Z.of_nat (length (individuals (population (state (engine
      (snd (run 3 (boot (ready [quiet_hook 1]))))))))) = 4 /\
  fst (@run World two_workers 3 (boot (ready [quiet_hook 1]))) = Ok tt /\
  Z.of_nat (length (individuals (population (state (engine
      (snd (@run World two_workers 3 (boot (ready [quiet_hook 1]))))))))) = 4.
Proof.
  assert (Hrun : fst (run 3 (boot (ready [quiet_hook 1]))) = Ok tt)
    by (vm_compute; reflexivity).
  assert (Hrun2 : fst (@run World two_workers 3 (boot (ready [quiet_hook 1]))) = Ok tt)
    by (vm_compute; reflexivity).
  split; [exact Hrun |].
  destruct (population_size_invariant (boot (ready [quiet_hook 1])))
    as (Hsize & _ & Hfill & Hsingle).
  split; [exact (Hsize 3 _ _ (pairing _ _ Hrun)) |].
  split.
  - destruct (Hfill demo_binary_crossover
                (Hsingle demo_single_process eq_refl (Z.lt_le_incl 0 4 eq_refl)))
      as (_ & _ & Hfull).
    apply (Hfull 3); [reflexivity | exact (pairing _ _ Hrun)].
  - split; [exact Hrun2 |].
    destruct (@population_size_invariant World two_workers (boot (ready [quiet_hook 1])))
      as (_ & _ & Hfill2 & _).
    destruct (Hfill2 demo_binary_crossover demo_two_workers) as (_ & _ & Hfull).
    apply (Hfull 3); [reflexivity | exact (pairing _ _ Hrun2)].
Defined.

(** A generation on a population of size 3 leaves two individuals. *)
Lemma offspring_count_witness :
  fst (generation 0 (boot odd_engine)) = Ok tt /\
  length (individuals (population (state (engine (snd (generation 0 (boot odd_engine)))))))
    = 2%nat.
Proof.
  assert (Hrun : fst (generation 0 (boot odd_engine)) = Ok tt)
    by (vm_compute; reflexivity).
  split; [exact Hrun |].
  apply Nat2Z.inj.
  exact (offspring_count 0 (boot odd_engine) _ (pairing _ _ Hrun)
           demo_binary_crossover demo_single_process).
Defined.

(** Without a fitness function [run] changes nothing. *)
Lemma run_needs_fitness_witness :
  run 5 (boot (new_engine [quiet_hook 1])) =
    (Raise no_fitness, boot (new_engine [quiet_hook 1])).
Proof. exact (run_needs_fitness 5 (boot (new_engine [quiet_hook 1]))). Defined.

End Checks.

(** ** The further properties on the demonstration engine *)

Module FurtherChecks.
Import Demo.

(** No generation: the hooks are set up and finalized, nothing else;
    with hooks that mark the world, two marks of each kind follow the
    first statistics. *)
Lemma run_of_no_generation_witness :
  let s := boot (ready [quiet_hook 1; quiet_hook 2]) in
  let t := boot (ready [marking_hook 1; marking_hook 2]) in
  population (state (engine (snd (run 0 s)))) = pop4 /\
  current_generation (state (engine (snd (run 0 s)))) = -1 /\
  trace (snd (run 0 s)) =
    [SetupCall 0 0; SetupCall 1 0; FinalizeCall 0; FinalizeCall 1] /\
  world (snd (run 0 t)) = (world (snd (update_statistics t)) + 20 + 2000)%nat.
Proof.
  intros s t.
  assert (Hrun : fst (run 0 s) = Ok tt) by (vm_compute; reflexivity).
  destruct (run_of_no_generation 0 s _ _ (Z.le_refl 0) (Checks.pairing _ _ Hrun))
    as (Hpop & Hret & _).
  split; [exact Hpop |].
  destruct (Hret eq_refl) as [Hgen Htrace].
  split; [exact Hgen |]. split; [exact Htrace |].
  assert (Hstat : fst (update_statistics t) = Ok tt) by (vm_compute; reflexivity).
  assert (Hfit : fitness (engine t) <> None) by discriminate.
  assert (E : forall st st' w,
            (in_turn (setup_calls (analysis (engine t)) 0 st) >>
             in_turn (finalize_calls (analysis (engine t)) st')) w
            = (Ok tt, (w + 10 + 10 + 1000 + 1000)%nat)) by reflexivity.
  destruct (run 0 t) as [r u] eqn:Hmarks.
  destruct (run_of_no_generation 0 t r u (Z.le_refl 0) Hmarks) as (_ & _ & Hw).
  specialize (Hw _ Hfit (Checks.pairing _ _ Hstat)).
  rewrite E in Hw. injection Hw as _ Hw.
  cbn [snd]. rewrite <- Hw. reflexivity.
Defined.

(** The failing mutation ends the loop in generation 3: one entry in the
    log, after the steps and before the finalizers. *)
Lemma exception_logging_witness :
  let s := boot (fragile [quiet_hook 2]) in
  let e := Exn (UserException 7) "mutation failed"%string [] in
  fst (run 10 s) = Raise e /\
  exists pre finals,
    trace (snd (run 10 s)) = pre ++ [LoggedException e] ++ finals /\
    (forall e', ~ In (LoggedException e') pre) /\
    (forall e', ~ In (LoggedException e') finals).
Proof.
  intros s e.
  split; [vm_compute; reflexivity |].
  assert (Hpre : fst (run_prelude 10 s) = Ok tt) by (vm_compute; reflexivity).
  assert (Hbody : fst (for_each (range 10) generation (snd (run_prelude 10 s))) = Raise e)
    by (vm_compute; reflexivity).
  destruct (exception_logging 10 s) as (Hlog & _).
  destruct (Hlog _ _ _ (Checks.pairing _ _ Hpre) (Checks.pairing _ _ Hbody))
    as (pre & finals & Htr & _ & Hp & Hf).
  exists pre, finals. split; [exact Htr | split; assumption].
Defined.

(** After generation 0 of the demonstration engine the statistics are
    those of the new population [4; 1; 4; 1]. *)
Lemma statistics_witness :
  let s' := snd (generation 0 (boot (ready []))) in
  fst (generation 0 (boot (ready []))) = Ok tt /\
  individuals (population (state (engine s'))) = [4; 1; 4; 1]%nat /\
  fmax (state (engine s')) = PyFloat 4 /\
  fmin (state (engine s')) = PyFloat 1 /\
  fmean (state (engine s')) = PyFloat 2.5.
Proof.
  intro s'.
  assert (Hrun : fst (generation 0 (boot (ready []))) = Ok tt)
    by (vm_compute; reflexivity).
  split; [exact Hrun |].
  split; [vm_compute; reflexivity |].
  destruct (statistics_follow_the_population 0 _ _ (Checks.pairing _ _ Hrun))
    as (st & w0 & w1 & w2 & w3 & _ & _ & Hmax & Hmin & Hmean).
  fold s' in Hmax, Hmin, Hmean.
  assert (Hp : population (state (engine s')) =
               {| individuals := [4; 1; 4; 1]%nat; size := 4 |})
    by (vm_compute; reflexivity).
  rewrite Hp in Hmax, Hmin, Hmean.
  generalize dependent (fmax (state (engine s'))). intros hi Hmax Hmin Hmean.
  generalize dependent (fmin (state (engine s'))). intros lo Hmin Hmean.
  generalize dependent (fmean (state (engine s'))). intros av Hmean.
  cbv in Hmax. cbv in Hmin. cbv in Hmean.
  injection Hmax as Hmax _. injection Hmin as Hmin _. injection Hmean as Hmean _.
  repeat split; symmetry; assumption.
Defined.

(** The offspring of [elitist] is [2; 3; 2; 3]: the first 2 gives way to
    the best individual, 4. *)
Lemma elite_replaces_first_offspring_witness :
  let s' := snd (generation 0 (boot elitist)) in
  fst (generation 0 (boot elitist)) = Ok tt /\
  individuals (population (state (engine s'))) = [4; 3; 2; 3]%nat /\
  exists best merged,
    merged <> [] /\
    individuals (population (state (engine s'))) = best :: tail merged /\
    forall j, individuals (population (state (engine s'))) !! S j = merged !! S j.
Proof.
  intro s'.
  assert (Hrun : fst (generation 0 (boot elitist)) = Ok tt)
    by (vm_compute; reflexivity).
  split; [exact Hrun |].
  split; [vm_compute; reflexivity |].
  destruct (elite_replaces_first_offspring 0 _ _ (Checks.pairing _ _ Hrun))
    as (best & w1 & k & s2 & local_indvs & s3 & merged & w4
        & _ & _ & _ & _ & Hne & Hhead & Hrest).
  exists best, merged. split; [exact Hne | split; [exact Hhead | exact Hrest]].
Defined.

(** A hook registered late on an engine that has one of interval 2. *)
Lemma late_hook_witness :
  let self := ready [quiet_hook 2] in
  let self' := set_analysis (analysis self ++ [quiet_hook 1 tt]) self in
  analysis_register_checked (AnalysisSubclass (hook_class 1)) self 0%nat
    = (Ok self', 1%nat) /\
  fst (run 3 (boot self')) = Ok tt /\
  trace (snd (run 3 (boot self'))) =
    [SetupCall 0 3; SetupCall 1 3;
     RegisterStepCall 0 0; RegisterStepCall 1 0;
     RegisterStepCall 1 1;
     RegisterStepCall 0 2; RegisterStepCall 1 2;
     FinalizeCall 0; FinalizeCall 1].
Proof.
  intros self self'.
  assert (Hrun : fst (run 3 (boot self')) = Ok tt) by (vm_compute; reflexivity).
  destruct (late_hook_is_called_last self 0%nat) as (Hsub & _ & _).
  destruct (Hsub (hook_class 1) (quiet_hook 1 tt) 1%nat eq_refl)
    as (e & Hreg & _ & _ & _ & _ & _ & Htrace).
  assert (E : analysis_register_checked (AnalysisSubclass (hook_class 1)) self 0%nat
              = (Ok self', 1%nat)) by reflexivity.
  rewrite E in Hreg. injection Hreg as <-.
  split; [exact E |]. split; [exact Hrun |].
  exact (Htrace 3 0%nat [] _ (Checks.pairing _ _ Hrun)).
Defined.

(** The registered [raw_fitness] on individual 3. *)
Lemma registered_fitness_witness :
  exists checked,
    fitness (ready []) = Some checked /\
    checked (state_at 2 0) (PyIndv 3) 0%nat = (Ok (PyFloat 3), 1%nat) /\
    exists f, PyFloat 3 = PyFloat f /\ is_nan f = false.
Proof.
  destruct (registered_fitness_returns_float raw_fitness (new_engine []))
    as (checked & Hreg & Hpost).
  exists checked. split; [exact Hreg |].
  assert (E : fitness (fitness_register raw_fitness (new_engine []))
              = Some (_fn_with_fitness_check raw_fitness)) by reflexivity.
  rewrite E in Hreg. injection Hreg as <-.
  assert (Hcall : _fn_with_fitness_check raw_fitness (state_at 2 0) (PyIndv 3) 0%nat
                  = (Ok (PyFloat 3), 1%nat)) by (vm_compute; reflexivity).
  split; [exact Hcall |].
  exact (proj2 (proj2 (Hpost _ _ _ _ _ Hcall))).
Defined.

(** A raw fitness that returns the int 5, scaled and then registered:
    with [fmin = 2] and [ksi = 0.5] the active fitness is the float 3.5. *)
Lemma registered_linear_scaling_witness :
  let fn := const_fitness (PyInt 5) in
  let scaled := fst (linear_scaling "max" (PyFloat 0.5) fn (new_engine [])) in
  let self' :=
    fitness_register scaled (snd (linear_scaling "max" (PyFloat 0.5) fn (new_engine []))) in
  ori_fitness self' = Some fn /\
  callable (fitness self') (state_at 2 0) (PyIndv 1) 0%nat = (Ok (PyFloat 3.5), 1%nat).
Proof.
  intros fn scaled self'.
  destruct (registered_linear_scaling "max" (PyFloat 0.5) fn (new_engine []))
    as (Hori & active & Hact & Hval).
  split; [exact Hori |].
  fold fn scaled self' in Hact. rewrite Hact.
  destruct (Hval (state_at 2 0) 1%nat 0%nat (PyInt 5) 1%nat 0.5%float eq_refl eq_refl)
    as (Hmax & _).
  destruct (Hmax 5%float 2%float eq_refl eq_refl) as (_ & Hint).
  exact (Hint 5 eq_refl eq_refl).
Defined.

(** Before the first [run] the statistics are [None]: both scaled
    versions of [raw_fitness] raise [TypeError]. *)
Lemma scaling_needs_statistics_witness :
  let st := state (new_engine []) in
  fmin st = PyNone /\
  exists msg args,
    _fn_with_linear_scaling "max" (PyFloat 0.5) raw_fitness st (PyIndv 3) 0%nat =
      (Raise (Exn TypeError msg args), 1%nat) /\
    _fn_with_dynamic_linear_scaling "max" (PyInt 2) (PyFloat 0.9) raw_fitness
        st (PyIndv 3) 0%nat =
      (Raise (Exn TypeError msg args), 1%nat).
Proof.
  intro st. split; [reflexivity |].
  apply (scaling_needs_statistics "max" (PyFloat 0.5) (PyInt 2) (PyFloat 0.9)
           raw_fitness st (PyIndv 3) 0%nat (PyFloat 3) 1%nat).
  - vm_compute. reflexivity.
  - right. exists 3%float. reflexivity.
  - left. split; reflexivity.
Defined.

(** The constructor on the demonstration collaborators and two hook
    classes; the fitness passed is not kept. *)
Lemma constructor_accepts_witness :
  GAEngine_new (APopulation pop4) (ASelection first_two) (ACrossover swap)
      (AMutation unchanged) (Some raw_fitness) (Some [hook_entry 1; hook_entry 5]) 0%nat
  = (Ok (fresh_engine pop4 first_two swap unchanged [quiet_hook 1 tt; quiet_hook 5 tt]),
     2%nat).
Proof.
  destruct (constructor_accepts_well_typed
              (APopulation pop4) (ASelection first_two) (ACrossover swap)
              (AMutation unchanged) (Some raw_fitness)
              (Some [hook_entry 1; hook_entry 5]) 0%nat
              [AnAnalysis (quiet_hook 1 tt); AnAnalysis (quiet_hook 5 tt)] 2%nat eq_refl)
    as (_ & H).
  exact (H pop4 first_two swap unchanged [quiet_hook 1 tt; quiet_hook 5 tt]
           eq_refl eq_refl eq_refl eq_refl eq_refl).
Defined.

(** Three failed constructions: a list for the population (and a string
    for the selection, which is not reported); a factory that returns a
    function; a factory that returns a dict. *)
Lemma constructor_reports_witness :
  GAEngine_new (Foreign "list" None) (Foreign "str" None) (ACrossover swap)
      (AMutation unchanged) None None 0%nat
    = (Raise (Exn TypeError "population must be a GAPopulation object"%string []), 0%nat) /\
  GAEngine_new (APopulation pop4) (ASelection first_two) (ACrossover swap)
      (AMutation unchanged) None (Some [hook_entry 1; function_entry; dict_entry]) 0%nat
    = (Raise (Exn TypeError "{} is not subclass of OnTheFlyAnalysis"%string
                  [PyStr "report"%string]), 3%nat) /\
  GAEngine_new (APopulation pop4) (ASelection first_two) (ACrossover swap)
      (AMutation unchanged) None (Some [hook_entry 1; dict_entry]) 0%nat
    = (Raise (Exn AttributeError "'{}' object has no attribute '__name__'"%string
                  [PyStr "dict"%string]), 2%nat).
Proof.
  split; [| split].
  - destruct (constructor_reports_first_mismatch
                (Foreign "list"%string None) (Foreign "str"%string None) (ACrossover swap)
                (AMutation unchanged) None None 0%nat) as (_ & H).
    destruct (H [] 0%nat eq_refl) as (Hpop & _).
    apply Hpop. intros p. discriminate.
  - destruct (constructor_reports_first_mismatch
                (APopulation pop4) (ASelection first_two) (ACrossover swap)
                (AMutation unchanged) None
                (Some [hook_entry 1; function_entry; dict_entry]) 0%nat) as (_ & H).
    destruct (H _ 3%nat eq_refl) as (_ & H1).
    destruct (H1 _ eq_refl) as (_ & H2).
    destruct (H2 _ eq_refl) as (_ & H3).
    destruct (H3 _ eq_refl) as (_ & H4).
    destruct (H4 unchanged [quiet_hook 1 tt]
                (Foreign "function"%string (Some "report"%string))
                [Foreign "dict"%string None] eq_refl eq_refl) as (Hname & _).
    + intros a. discriminate.
    + exact (Hname _ _ eq_refl).
  - destruct (constructor_reports_first_mismatch
                (APopulation pop4) (ASelection first_two) (ACrossover swap)
                (AMutation unchanged) None
                (Some [hook_entry 1; dict_entry]) 0%nat) as (_ & H).
    destruct (H _ 2%nat eq_refl) as (_ & H1).
    destruct (H1 _ eq_refl) as (_ & H2).
    destruct (H2 _ eq_refl) as (_ & H3).
    destruct (H3 _ eq_refl) as (_ & H4).
    destruct (H4 unchanged [quiet_hook 1 tt] (Foreign "dict"%string None) []
                eq_refl eq_refl) as (_ & Hnone).
    + intros a. discriminate.
    + apply Hnone. intros cls name. discriminate.
Defined.

End FurtherChecks.
